(** * FixedIncomeValuation: bond cashflows, valuation and curve fitting

    A shallow embedding of [bond.py] and [discount_curve.py].

    - Python exceptions are an explicit [result] type.
    - [datetime.date] is a record of year, month and day, with the
      proleptic Gregorian arithmetic of the reference implementation
      ([_ymd2ord], [_ord2ymd], range checks on construction and on
      [date + timedelta]).
    - Python [float] is the binary64 type of the kernel ([PrimFloat]);
      the arithmetic of [calculate_dirty_value] is duck-typed in Python
      and is therefore written against a small class of number types,
      of which binary64 and the unbounded integers are instances.
    - The two [scipy] entry points used by the fit ([CubicSpline] and
      [least_squares]) are parameters of the section that embeds
      [fit_discount_curve]; the C library's [pow] and the complex power
      are parameters of the interpreter's float [pow]. *)

From Stdlib Require Import ZArith List Bool Lia Sorted Permutation Floats Uint63.
Import ListNotations.

Local Open Scope Z_scope.

(* ================================================================== *)
(** ** Exceptions *)

Inductive exn : Type :=
| ValueError
| OverflowError
| IndexError
| ZeroDivisionError
| AttributeError.

(** The outcome of running a piece of Python: a value, a raised
    exception, or [OutOfFuel] when the bound put on a loop or on a
    recursion was not enough (shown below never to happen on dates). *)
Inductive result (A : Type) : Type :=
| Ok (a : A)
| Raise (e : exn)
| OutOfFuel.

Arguments Ok {A} a.
Arguments Raise {A} e.
Arguments OutOfFuel {A}.

Definition bind {A B : Type} (r : result A) (k : A -> result B) : result B :=
  match r with
  | Ok a => k a
  | Raise e => Raise e
  | OutOfFuel => OutOfFuel
  end.

Notation "x <- r ;; k" := (bind r (fun x => k))
  (at level 61, r at next level, right associativity).

(* ================================================================== *)
(** ** [datetime.date] *)

Module PyDate.

Record date : Type := mkdate { year : Z; month : Z; day : Z }.

Definition MINYEAR : Z := 1.
Definition MAXYEAR : Z := 9999.
Definition _MAXORDINAL : Z := 3652059.

Definition _DAYS_IN_MONTH (m : Z) : Z :=
  match m with
  | 1 => 31 | 2 => 28 | 3 => 31 | 4 => 30 | 5 => 31 | 6 => 30
  | 7 => 31 | 8 => 31 | 9 => 30 | 10 => 31 | 11 => 30 | 12 => 31
  | _ => -1
  end.

Definition _DAYS_BEFORE_MONTH (m : Z) : Z :=
  match m with
  | 1 => 0 | 2 => 31 | 3 => 59 | 4 => 90 | 5 => 120 | 6 => 151
  | 7 => 181 | 8 => 212 | 9 => 243 | 10 => 273 | 11 => 304 | 12 => 334
  | _ => -1
  end.

Definition _is_leap (y : Z) : bool :=
  (y mod 4 =? 0) && (negb (y mod 100 =? 0) || (y mod 400 =? 0)).

Definition _days_before_year (y : Z) : Z :=
  let y := y - 1 in y * 365 + y / 4 - y / 100 + y / 400.

Definition _days_in_month (y m : Z) : Z :=
  if (m =? 2) && _is_leap y then 29 else _DAYS_IN_MONTH m.

Definition _days_before_month (y m : Z) : Z :=
  _DAYS_BEFORE_MONTH m + (if (2 <? m) && _is_leap y then 1 else 0).

Definition _ymd2ord (y m d : Z) : Z :=
  _days_before_year y + _days_before_month y m + d.

Definition _DI400Y : Z := 146097.
Definition _DI100Y : Z := 36524.
Definition _DI4Y : Z := 1461.

Definition _ord2ymd (n : Z) : date :=
  let n := n - 1 in
  let n400 := n / _DI400Y in
  let n := n mod _DI400Y in
  let y := n400 * 400 + 1 in
  let n100 := n / _DI100Y in
  let n := n mod _DI100Y in
  let n4 := n / _DI4Y in
  let n := n mod _DI4Y in
  let n1 := n / 365 in
  let n := n mod 365 in
  let y := y + n100 * 100 + n4 * 4 + n1 in
  if (n1 =? 4) || (n100 =? 4) then mkdate (y - 1) 12 31
  else
    let leapyear := (n1 =? 3) && (negb (n4 =? 24) || (n100 =? 3)) in
    let m := Z.shiftr (n + 50) 5 in
    let preceding :=
      _DAYS_BEFORE_MONTH m + (if (2 <? m) && leapyear then 1 else 0) in
    let '(m, preceding) :=
      if n <? preceding
      then (m - 1,
            preceding
            - (_DAYS_IN_MONTH (m - 1)
               + (if (m - 1 =? 2) && leapyear then 1 else 0)))
      else (m, preceding) in
    mkdate y m (n - preceding + 1).

(** [date(year, month, day)]: the constructor checks its fields. *)
Definition new_date (y m d : Z) : result date :=
  if negb ((MINYEAR <=? y) && (y <=? MAXYEAR)) then Raise ValueError
  else if negb ((1 <=? m) && (m <=? 12)) then Raise ValueError
  else if negb ((1 <=? d) && (d <=? _days_in_month y m)) then Raise ValueError
  else Ok (mkdate y m d).

(** The invariant of every [date] object that Python can hold. *)
Definition valid_dateb (d : date) : bool :=
  (MINYEAR <=? year d) && (year d <=? MAXYEAR)
  && (1 <=? month d) && (month d <=? 12)
  && (1 <=? day d) && (day d <=? _days_in_month (year d) (month d)).

Definition valid_date (d : date) : Prop := valid_dateb d = true.

Definition toordinal (d : date) : Z := _ymd2ord (year d) (month d) (day d).

Definition fromordinal (n : Z) : date := _ord2ymd n.

Definition weekday (d : date) : Z := (toordinal d + 6) mod 7.

(** [d + timedelta(days = n)]; [d - timedelta(days = n)] is
    [d + timedelta(days = -n)]. *)
Definition add_days (d : date) (n : Z) : result date :=
  let o := toordinal d + n in
  if (0 <? o) && (o <=? _MAXORDINAL) then Ok (fromordinal o)
  else Raise OverflowError.

Definition sub_days (d : date) (n : Z) : result date := add_days d (- n).

(** [(d2 - d1).days] *)
Definition days_between (d1 d2 : date) : Z := toordinal d2 - toordinal d1.

(** Comparison is that of the tuples [(year, month, day)]. *)
Definition compare (a b : date) : comparison :=
  match year a ?= year b with
  | Eq => match month a ?= month b with
          | Eq => day a ?= day b
          | c => c
          end
  | c => c
  end.

Definition ltb (a b : date) : bool :=
  match compare a b with Lt => true | _ => false end.
Definition leb (a b : date) : bool :=
  match compare a b with Gt => false | _ => true end.
Definition gtb (a b : date) : bool := ltb b a.

(** [timedelta(days = n)] itself is bounded. *)
Definition timedelta_days (n : Z) : result Z :=
  if (-999999999 <=? n) && (n <=? 999999999) then Ok n
  else Raise OverflowError.

End PyDate.

Import PyDate.

(* ================================================================== *)
(** ** Numbers *)

(** The operations that the valuation code applies to amounts and
    discount factors.  [num_zero] is the [int] zero that the builtin
    [sum] starts from, [num_one] the [int] one of a flat test curve;
    both are converted to the type of the other operand by Python's
    mixed arithmetic. *)
Class PyNumber (num : Type) : Type := {
  num_zero : num;
  num_one : num;
  num_add : num -> num -> num;
  num_mul : num -> num -> num
}.

(** [sum(xs)]: the items are added to the start value, left to right
    (the plain sum of the interpreters before 3.12, which compensate a
    sum of several floats since). *)
Definition py_sum {num : Type} `{PyNumber num} (xs : list num) : num :=
  fold_left num_add xs num_zero.

(** Python [float]: IEEE 754 binary64. *)
#[export] Instance float_number : PyNumber float := {
  num_zero := 0%float;
  num_one := 1%float;
  num_add := PrimFloat.add;
  num_mul := PrimFloat.mul
}.

(** Python [int]. *)
#[export] Instance int_number : PyNumber Z := {
  num_zero := 0;
  num_one := 1;
  num_add := Z.add;
  num_mul := Z.mul
}.

(** [float(z)] for the small integers of this program (day counts,
    knot indices, literal constants): exact below [2^53]. *)
Definition float_of_Z (z : Z) : float :=
  match z with
  | Zneg p => PrimFloat.opp (PrimFloat.of_uint63 (Uint63.of_Z (Zpos p)))
  | _ => PrimFloat.of_uint63 (Uint63.of_Z z)
  end.

(** A decimal literal [n / 10^k] denotes the binary64 value nearest to
    it, which is what the correctly rounded quotient of the two exactly
    represented integers gives. *)
Definition float_lit (n d : Z) : float :=
  PrimFloat.div (float_of_Z n) (float_of_Z d).

(* ================================================================== *)
(** ** bond.py *)

(** *** Properties (the descriptor behind [@property]) *)

Record property (obj val : Type) : Type := mkproperty {
  fget : option (obj -> val);
  fset : option (obj -> val -> obj)
}.

Arguments mkproperty {obj val} fget fset.
Arguments fget {obj val} p.
Arguments fset {obj val} p.

(** [@property def f(self)] *)
Definition property_of_getter {obj val : Type} (g : obj -> val)
  : property obj val :=
  mkproperty (Some g) None.

(** [p.setter(s)] returns a copy of [p] with the setter replaced; the
    decorated function's name is then bound to that copy. *)
Definition property_setter {obj val : Type} (p : property obj val)
  (s : obj -> val -> obj) : property obj val :=
  mkproperty (fget p) (Some s).

(** [self.p] *)
Definition prop_get {obj val : Type} (p : property obj val) (self : obj)
  : result val :=
  match fget p with
  | Some g => Ok (g self)
  | None => Raise AttributeError
  end.

(** [self.p = v] *)
Definition prop_set {obj val : Type} (p : property obj val) (self : obj)
  (v : val) : result obj :=
  match fset p with
  | Some s => Ok (s self v)
  | None => Raise AttributeError
  end.

Section Bond.

Context {num : Type} `{PyNumber num}.

Record Coupon : Type := mkCoupon {
  ex_date : date;
  payment_date : date;
  coupon_amount : num
}.

(** [Coupon(amount, ex_date, payment_date)] *)
Definition Coupon_init (amount : num) (ex_date payment_date : date) : Coupon :=
  mkCoupon ex_date payment_date amount.

Record FixedRateACGB : Type := mkFixedRateACGB {
  principle : num;
  coupons : list Coupon;
  maturity : date;
  _market_dirty_price : num
}.

(** [FixedRateACGB(principle, coupons, maturity)] *)
Definition FixedRateACGB_init (principle : num) (coupons : list Coupon)
  (maturity : date) : FixedRateACGB :=
  mkFixedRateACGB principle coupons maturity num_zero.

Definition market_value_fget (self : FixedRateACGB) : num :=
  _market_dirty_price self.

Definition market_dirty_price_fset (self : FixedRateACGB) (value : num)
  : FixedRateACGB :=
  mkFixedRateACGB (principle self) (coupons self) (maturity self) value.

(** The two names that the class body binds. *)
Definition market_value : property FixedRateACGB num :=
  property_of_getter market_value_fget.

Definition market_dirty_price : property FixedRateACGB num :=
  property_setter market_value market_dirty_price_fset.

Definition calculate_dirty_value (self : FixedRateACGB)
  (discount_curve : date -> num) (today : date) : num :=
  let future_coupons :=
    filter (fun c => PyDate.gtb (ex_date c) today) (coupons self) in
  let discounted_coupon_value :=
    py_sum (map (fun c => num_mul (discount_curve (payment_date c))
                                  (coupon_amount c))
                future_coupons) in
  let discounted_face_value :=
    num_mul (discount_curve (maturity self)) (principle self) in
  num_add discounted_coupon_value discounted_face_value.

(** The recursion of [_business_date], bounded by [fuel] calls. *)
Fixpoint _business_date_rec (fuel : nat) (reference_date : date)
  : result date :=
  match fuel with
  | O => OutOfFuel
  | S fuel' =>
      if 4 <? weekday reference_date then
        next <- add_days reference_date 1 ;;
        _business_date_rec fuel' next
      else Ok reference_date
  end.

Definition _business_date (reference_date : date) : result date :=
  _business_date_rec 7 reference_date.

(** The [while] loop of [construct_yearly_coupon_series], bounded by
    [fuel] evaluations of its condition. *)
Fixpoint coupon_loop (fuel : nat) (last_pay_date : date) (amount : num)
  (coupon_date : date) (coupons : list Coupon) : result (list Coupon) :=
  match fuel with
  | O => OutOfFuel
  | S fuel' =>
      if PyDate.leb coupon_date last_pay_date then
        before <- sub_days coupon_date 9 ;;
        ex_date <- _business_date before ;;
        payment_date <- _business_date coupon_date ;;
        let coupons := coupons ++ [Coupon_init amount ex_date payment_date] in
        next <- new_date (year coupon_date + 1) (month coupon_date)
                         (day coupon_date) ;;
        coupon_loop fuel' last_pay_date amount next coupons
      else Ok coupons
  end.

(** The year grows by one on every turn and [date] refuses years past
    [MAXYEAR], so the condition is evaluated at most this many times. *)
Definition coupon_loop_bound (first_pay_date : date) : nat :=
  Z.to_nat (MAXYEAR + 1 - year first_pay_date).

Definition construct_yearly_coupon_series (first_pay_date last_pay_date : date)
  (rate principle : num) : result (list Coupon) :=
  let amount := num_mul principle rate in
  coupon_loop (coupon_loop_bound first_pay_date) last_pay_date amount
              first_pay_date [].

End Bond.

Arguments Coupon num : clear implicits.
Arguments FixedRateACGB num : clear implicits.

(** [construct] divides the annual rate by the float [2.0]: its amounts
    are floats. *)
Definition construct (first_coupon_pay_date second_coupon_pay_date
  maturity_date : date) (coupon_rate principle : float)
  : result (FixedRateACGB float) :=
  coupons_a <- construct_yearly_coupon_series first_coupon_pay_date
                 maturity_date (PrimFloat.div coupon_rate 2%float) principle ;;
  coupons_b <- construct_yearly_coupon_series second_coupon_pay_date
                 maturity_date (PrimFloat.div coupon_rate 2%float) principle ;;
  Ok (FixedRateACGB_init principle (coupons_a ++ coupons_b) maturity_date).

(* ================================================================== *)
(** ** The float operations of the interpreter *)

Module PyFloat.

Local Open Scope float_scope.

(** A [float] or, from a negative base raised to a fractional power,
    a [complex]. *)
Inductive pyval : Type :=
| PyFloat (x : float)
| PyComplex (re im : float).

(** [x / y] on floats *)
Definition truediv (x y : float) : result float :=
  if y =? 0 then Raise ZeroDivisionError else Ok (x / y).

(** [a / b] on the small integers of this program, [b] a non-zero
    literal: the quotient rounded once. *)
Definition int_truediv (a b : Z) : float := float_of_Z a / float_of_Z b.

(** [x == floor(x)] *)
Definition is_integer (x : float) : bool :=
  match Prim2SF x with
  | S754_zero _ => true
  | S754_infinity _ => true
  | S754_nan => false
  | S754_finite _ m e =>
      (0 <=? e)%Z || (Zpos m mod 2 ^ (- e) =? 0)%Z
  end.

(** [DOUBLE_IS_ODD_INTEGER(x)], that is [fmod(fabs(x), 2.0) == 1.0] *)
Definition is_odd_integer (x : float) : bool :=
  match Prim2SF x with
  | S754_finite _ m e =>
      if (0 <? e)%Z then false
      else (Zpos m mod 2 ^ (- e) =? 0)%Z && Z.odd (Zpos m / 2 ^ (- e))
  | _ => false
  end.

Definition copysign_zero (x : float) : float :=
  if get_sign x then neg_zero else zero.

Definition ERANGE : Z := 34.

Section Pow.

(** The C library's [pow], with the [errno] it leaves, and the complex
    power that a negative base with a fractional exponent is handed to. *)
Variable libm_pow : float -> float -> float * Z.
Variable complex_pow : float -> float -> result (float * float).

(** [pow(iv, iw)] on floats, case by case as the interpreter does. *)
Definition float_pow (iv iw : float) : result pyval :=
  if iw =? 0 then Ok (PyFloat 1)
  else if is_nan iv then Ok (PyFloat iv)
  else if is_nan iw then Ok (PyFloat (if iv =? 1 then 1 else iw))
  else if is_infinity iw then
    let iv := abs iv in
    if iv =? 1 then Ok (PyFloat 1)
    else if Bool.eqb (0 <? iw) (1 <? iv) then Ok (PyFloat (abs iw))
    else Ok (PyFloat 0)
  else if is_infinity iv then
    let iw_is_odd := is_odd_integer iw in
    if 0 <? iw then Ok (PyFloat (if iw_is_odd then iv else abs iv))
    else Ok (PyFloat (if iw_is_odd then copysign_zero iv else 0))
  else if iv =? 0 then
    if iw <? 0 then Raise ZeroDivisionError
    else Ok (PyFloat (if is_odd_integer iw then iv else 0))
  else if (iv <? 0) && negb (is_integer iw) then
    c <- complex_pow iv iw ;; Ok (PyComplex (fst c) (snd c))
  else
    let negate_result := (iv <? 0) && is_odd_integer iw in
    let iv := if iv <? 0 then - iv else iv in
    if iv =? 1 then Ok (PyFloat (if negate_result then -1 else 1))
    else
      let '(ix, errno) := libm_pow iv iw in
      let errno :=
        if (errno =? 0)%Z then (if is_infinity ix then ERANGE else 0%Z)
        else if (errno =? ERANGE)%Z && (ix =? 0) then 0%Z
        else errno in
      let ix := if negate_result then - ix else ix in
      if (errno =? 0)%Z then Ok (PyFloat ix)
      else Raise (if (errno =? ERANGE)%Z then OverflowError else ValueError).

(** [v - 1] *)
Definition sub_one (v : pyval) : pyval :=
  match v with
  | PyFloat x => PyFloat (x - 1)
  | PyComplex re im => PyComplex (re - 1) (im - 0)
  end.

End Pow.

(** [round(x)] with one argument: the integer nearest to [x], the even
    one of two that are equally near; a NaN and an infinity have none. *)
Definition round (x : float) : result Z :=
  match Prim2SF x with
  | S754_nan => Raise ValueError
  | S754_infinity _ => Raise OverflowError
  | S754_zero _ => Ok 0%Z
  | S754_finite s m e =>
      let magnitude :=
        if (0 <=? e)%Z then (Zpos m * 2 ^ e)%Z
        else
          let q := (Zpos m / 2 ^ (- e))%Z in
          let r := (Zpos m mod 2 ^ (- e))%Z in
          match (2 * r ?= 2 ^ (- e))%Z with
          | Lt => q
          | Gt => (q + 1)%Z
          | Eq => if Z.even q then q else (q + 1)%Z
          end in
      Ok (if s then (- magnitude)%Z else magnitude)
  end.

End PyFloat.

(* ================================================================== *)
(** ** discount_curve.py *)

Record DiscountFitOptions : Type := mkDiscountFitOptions {
  knot_count : Z;
  extenion_days : Z
}.

(** [DiscountFitOptions()] *)
Definition DiscountFitOptions_init : DiscountFitOptions :=
  mkDiscountFitOptions 5 100.

Definition _date_to_year_fraction_act_365 (today future_date : date) : float :=
  let days := days_between today future_date in
  let year_frac := PyFloat.int_truediv days 365 in
  year_frac.

Definition _year_fraction_act_365_to_date (today : date)
  (year_fraction : float) : result date :=
  days <- PyFloat.round (year_fraction * float_of_Z 365)%float ;;
  delta <- timedelta_days days ;;
  add_days today delta.

Section DiscountToYield.

Variable libm_pow : float -> float -> float * Z.
Variable complex_pow : float -> float -> result (float * float).

Definition discount_to_yield (discount : float) (future_date today : date)
  : result PyFloat.pyval :=
  let year_frac := _date_to_year_fraction_act_365 today future_date in
  exponent <- PyFloat.truediv (-1)%float year_frac ;;
  p <- PyFloat.float_pow libm_pow complex_pow discount exponent ;;
  Ok (PyFloat.sub_one p).

End DiscountToYield.

(** [sorted(xs, key = k)] with dates as keys: the sort is stable, so
    its result is that of the stable insertion sort. *)
Fixpoint insert_by {A : Type} (key : A -> date) (x : A) (l : list A) : list A :=
  match l with
  | [] => [x]
  | y :: l' =>
      if PyDate.ltb (key y) (key x) then y :: insert_by key x l'
      else x :: l
  end.

Definition sorted {A : Type} (key : A -> date) (l : list A) : list A :=
  fold_right (insert_by key) [] l.

(** [l[i]], negative indices counting from the end *)
Definition py_index {A : Type} (l : list A) (i : Z) : result A :=
  let n := Z.of_nat (List.length l) in
  let i := if i <? 0 then i + n else i in
  if (i <? 0) || (n <=? i) then Raise IndexError
  else match nth_error l (Z.to_nat i) with
       | Some x => Ok x
       | None => Raise IndexError
       end.

(** [numpy.linspace(start, stop, num)] on floats *)
Definition linspace (start stop : float) (num : Z) : result (list float) :=
  if num <? 0 then Raise ValueError
  else
    let div := num - 1 in
    let y := map (fun i => float_of_Z (Z.of_nat i)) (seq 0 (Z.to_nat num)) in
    let delta := (stop - start)%float in
    let y :=
      if 0 <? div then
        let step := (delta / float_of_Z div)%float in
        if (step =? 0)%float
        then map (fun v => (v / float_of_Z div * delta)%float) y
        else map (fun v => (v * step)%float) y
      else map (fun v => (v * delta)%float) y in
    let y := map (fun v => (v + start)%float) y in
    Ok (if 1 <? num then removelast y ++ [stop] else y).

(** Lines 66 to 79 of [fit_discount_curve]: the bonds in maturity
    order and the knot locations. *)
Definition fit_knot_locations (bonds : list (FixedRateACGB float))
  (options : DiscountFitOptions) (today : date)
  : result (list (FixedRateACGB float) * list float) :=
  let sorted_bonds := sorted maturity bonds in
  first <- py_index sorted_bonds 0 ;;
  let first_maturity := maturity first in
  last <- py_index sorted_bonds (-1) ;;
  let last_maturity := maturity last in
  ext <- timedelta_days (extenion_days options) ;;
  curve_start <- sub_days first_maturity ext ;;
  ext <- timedelta_days (extenion_days options) ;;
  curve_end <- add_days last_maturity ext ;;
  let curve_start :=
    if PyDate.ltb curve_start today then today else curve_start in
  let cv_start_yr_frac := _date_to_year_fraction_act_365 today curve_start in
  let cv_end_yr_frac := _date_to_year_fraction_act_365 today curve_end in
  knot_locations <- linspace cv_start_yr_frac cv_end_yr_frac
                      (knot_count options) ;;
  Ok (sorted_bonds, knot_locations).

Section Fit.

(** [scipy.interpolate.CubicSpline(x, y)], called as a function, and
    [scipy.optimize.least_squares(fun, x0).x]. *)
Variable CubicSpline : list float -> list float -> result (float -> float).
Variable least_squares :
  (list float -> result (list float)) -> list float -> result (list float).

Fixpoint residuals (bonds : list (FixedRateACGB float))
  (date_curve : date -> float) (today : date) : result (list float) :=
  match bonds with
  | [] => Ok []
  | b :: rest =>
      price <- prop_get market_dirty_price b ;;
      let r := (calculate_dirty_value b date_curve today - price)%float in
      rs <- residuals rest date_curve today ;;
      Ok (r :: rs)
  end.

Definition fit_discount_curve (bonds : list (FixedRateACGB float))
  (options : DiscountFitOptions) (today : date) : result (date -> float) :=
  located <- fit_knot_locations bonds options today ;;
  let '(sorted_bonds, knot_locations) := located in
  let initial_guess :=
    repeat (float_lit 1 100) (Z.to_nat (knot_count options)) in
  let _resid (knots : list float) : result (list float) :=
    curve <- CubicSpline knot_locations knots ;;
    let date_curve :=
      fun dt => curve (_date_to_year_fraction_act_365 today dt) in
    residuals sorted_bonds date_curve today in
  fitted_knots <- least_squares _resid initial_guess ;;
  fitted_curve <- CubicSpline knot_locations fitted_knots ;;
  let fitted_dt_curve :=
    fun dt => fitted_curve (_date_to_year_fraction_act_365 today dt) in
  Ok fitted_dt_curve.

End Fit.

(* ================================================================== *)
(** ** The specification's vocabulary *)

(** The number of days by which a date on weekday [w] is rolled. *)
Definition business_shift (w : Z) : Z :=
  if w =? 5 then 2 else if w =? 6 then 1 else 0.

(** The next business day: a Saturday or Sunday moves to the Monday
    after it, any other day stays. *)
Definition next_business_day (d : date) : date :=
  if 4 <? weekday d then fromordinal (toordinal d + business_shift (weekday d))
  else d.

(** The date [n] days before [d]. *)
Definition days_before (d : date) (n : Z) : date :=
  fromordinal (toordinal d - n).

(** The date [k] calendar years after [d], same month and day. *)
Definition years_after (d : date) (k : nat) : date :=
  mkdate (year d + Z.of_nat k) (month d) (day d).

(** February 29 is the one date that has no anniversary next year. *)
Definition not_feb29 (d : date) : Prop := ~ (month d = 2 /\ day d = 29).

(** The dates reached from [first_pay_date] in steps of one calendar
    year that are not after [last_pay_date]. *)
Definition stepped_dates (first_pay_date last_pay_date : date) : list date :=
  filter (fun d => PyDate.leb d last_pay_date)
         (map (years_after first_pay_date)
              (seq 0 (Z.to_nat (year last_pay_date - year first_pay_date + 1)))).

Section Spec.

Context {num : Type} `{PyNumber num}.

(** The coupon that the specification attaches to a stepped date. *)
Definition coupon_on (amount : num) (d : date) : Coupon num :=
  Coupon_init amount (next_business_day (days_before d 9))
              (next_business_day d).

Definition annual_coupons (first_pay_date last_pay_date : date)
  (rate principal : num) : list (Coupon num) :=
  map (coupon_on (num_mul principal rate))
      (stepped_dates first_pay_date last_pay_date).

(** One pass over the coupons, adding the discounted amount of those
    whose ex-date is strictly after [as_of] and skipping the others. *)
Fixpoint discounted_from (curve : date -> num) (as_of : date) (acc : num)
  (cs : list (Coupon num)) : num :=
  match cs with
  | [] => acc
  | c :: cs' =>
      if PyDate.ltb as_of (ex_date c)
      then discounted_from curve as_of
             (num_add acc (num_mul (curve (payment_date c)) (coupon_amount c)))
             cs'
      else discounted_from curve as_of acc cs'
  end.

(** A bond with the same terms and other coupons. *)
Definition with_coupons (b : FixedRateACGB num) (cs : list (Coupon num))
  : FixedRateACGB num :=
  mkFixedRateACGB (principle b) cs (maturity b) (_market_dirty_price b).

End Spec.

(** The invariant of a coupon. *)
Definition ex_before_payment {num : Type} (c : Coupon num) : Prop :=
  PyDate.leb (ex_date c) (payment_date c) = true.

(** The order in which [sorted] leaves a list. *)
Definition key_le {A : Type} (key : A -> date) (x y : A) : Prop :=
  PyDate.leb (key x) (key y) = true.

(** [m] is the earliest (latest) of the dates [ds]. *)
Definition is_earliest (m : date) (ds : list date) : Prop :=
  In m ds /\ forall d, In d ds -> PyDate.leb m d = true.

Definition is_latest (m : date) (ds : list date) : Prop :=
  In m ds /\ forall d, In d ds -> PyDate.leb d m = true.

(** The [i]-th of [num >= 2] points from [start] to [stop], the last
    apart: [i] steps of [(stop - start) / (num - 1)] from [start]. *)
Definition linspace_inner (start stop : float) (num i : Z) : float :=
  let delta := (stop - start)%float in
  let step := (delta / float_of_Z (num - 1))%float in
  ((if (step =? 0)%float
    then float_of_Z i / float_of_Z (num - 1) * delta
    else float_of_Z i * step) + start)%float.

(** The points of [linspace] before the last is overwritten. *)
Definition linspace_raw (start stop : float) (num i : Z) : float :=
  let div := num - 1 in
  let delta := (stop - start)%float in
  ((if (0 <? div)%Z then
      let step := (delta / float_of_Z div)%float in
      if (step =? 0)%float then float_of_Z i / float_of_Z div * delta
      else float_of_Z i * step
    else float_of_Z i * delta) + start)%float.

(** Laws of arithmetic that a number type may or may not have.  The
    first two hold of binary64 as well as of exact numbers; the last
    two need exact arithmetic. *)
Class UnitLaws (num : Type) `{PyNumber num} : Prop := {
  num_mul_1_l : forall x, num_mul num_one x = x;
  num_add_comm : forall x y, num_add x y = num_add y x
}.

Class ExactLaws (num : Type) `{PyNumber num} : Prop := {
  num_mul_0_r : forall k, num_mul k num_zero = num_zero;
  num_mul_add_distr_l :
    forall k x y, num_mul k (num_add x y) = num_add (num_mul k x) (num_mul k y)
}.

(** Bounded universal quantification, for the finite checks below. *)
Fixpoint forall_below (n : nat) (f : Z -> bool) : bool :=
  match n with
  | O => true
  | S k => f (Z.of_nat k) && forall_below k f
  end.

(** The month and day that [_ord2ymd] reads off the day of the year [n]
    (counted from zero). *)
Definition month_day_of (leapyear : bool) (n : Z) : Z * Z :=
  let m := Z.shiftr (n + 50) 5 in
  let preceding :=
    _DAYS_BEFORE_MONTH m + (if (2 <? m) && leapyear then 1 else 0) in
  let '(m, preceding) :=
    if n <? preceding
    then (m - 1,
          preceding
          - (_DAYS_IN_MONTH (m - 1)
             + (if (m - 1 =? 2) && leapyear then 1 else 0)))
    else (m, preceding) in
  (m, n - preceding + 1).

Definition month_day_ok (leapyear : bool) (n : Z) : bool :=
  let '(m, d) := month_day_of leapyear n in
  (1 <=? m) && (m <=? 12) && (1 <=? d)
  && (d <=? (if (m =? 2) && leapyear then 29 else _DAYS_IN_MONTH m))
  && (_DAYS_BEFORE_MONTH m + (if (2 <? m) && leapyear then 1 else 0) + d
      =? n + 1).

Definition is_feb29 (d : date) : bool := (month d =? 2) && (day d =? 29).

Section Outcome.

Context {num : Type} `{PyNumber num}.

(** What [construct_yearly_coupon_series] does, case by case. *)
Definition annual_coupons_outcome (first_pay_date last_pay_date : date)
  (rate principal : num) : result (list (Coupon num)) :=
  if negb (PyDate.leb first_pay_date last_pay_date) then Ok []
  else if toordinal first_pay_date <? 10 then Raise OverflowError
  else if is_feb29 first_pay_date
          || PyDate.leb (mkdate MAXYEAR (month first_pay_date)
                                (day first_pay_date)) last_pay_date
  then Raise ValueError
  else Ok (annual_coupons first_pay_date last_pay_date rate principal).

End Outcome.

(** Bounded universal quantification over the machine integers from
    [lo] up to [lo + w], [w] the [k]-th power of two, by halving. *)
Fixpoint forall_range (k : nat) (w : int) (f : int -> bool) (lo : int)
  : bool :=
  match k with
  | O => f lo
  | S k' =>
      let h := (w >> 1)%uint63 in
      forall_range k' h f lo && forall_range k' h f (lo + h)%uint63
  end.

(** What the yield computation needs of a day count [i] and of its
    opposite: the year fraction has the sign of the day count, and
    [-1] divided by it is finite and of the other sign. *)
Definition year_frac_ok (i : int) : bool :=
  let t := (of_uint63 i / float_of_Z 365)%float in
  let t' := (- of_uint63 i / float_of_Z 365)%float in
  ((0 <? t) && (-1 / t <? 0) && negb (is_infinity (-1 / t))
   && (t' <? 0) && (0 <? -1 / t') && negb (is_infinity (-1 / t')))%float.

(** A check on machine integers that [round(z)] is [i] in magnitude,
    for a [z] between 1 and [2^52] in magnitude: the 53 bits of [z],
    shifted right by the [k] places after its binary point, are [i]
    with a remainder below a half, or [i - 1] with a remainder above. *)
Definition round_is (z : float) (i : int) : bool :=
  let '(f, se) := frshiftexp z in
  let m := normfr_mantissa f in
  let k := (2154 - se)%uint63 in
  let q := (m >> k)%uint63 in
  let r := (m - (q << k))%uint63 in
  let half := (1 << (k - 1))%uint63 in
  negb (is_nan z) && negb (PrimFloat.is_zero z) && negb (is_infinity z)
  && (2102 <=? se)%uint63 && (se <=? 2153)%uint63
  && (4503599627370496 <=? m)%uint63 && (m <? 9007199254740992)%uint63
  && (((q =? i) && (r <? half)) || ((q + 1 =? i) && (half <? r)))%uint63.

(** The year fraction of [i] days and of [-i] days, times 365, rounds
    to [i] and to [-i]. *)
Definition round_trip_ok (i : int) : bool :=
  let z := (of_uint63 i / float_of_Z 365 * float_of_Z 365)%float in
  let z' := (- of_uint63 i / float_of_Z 365 * float_of_Z 365)%float in
  round_is z i && negb (get_sign z) && round_is z' i && get_sign z'.

(* ================================================================== *)
(** * Facts about dates *)

Ltac divlia := Z.to_euclidean_division_equations; lia.

Ltac calc :=
  cbn [_DAYS_BEFORE_MONTH _DAYS_IN_MONTH Z.eqb Z.ltb Z.leb Z.compare
       Pos.eqb Pos.compare Pos.compare_cont andb orb negb].

Tactic Notation "calc" "in" "*" :=
  cbn [_DAYS_BEFORE_MONTH _DAYS_IN_MONTH Z.eqb Z.ltb Z.leb Z.compare
       Pos.eqb Pos.compare Pos.compare_cont andb orb negb] in *.

Ltac months m :=
  let Hm := fresh "Hm" in
  assert (m = 1 \/ m = 2 \/ m = 3 \/ m = 4 \/ m = 5 \/ m = 6 \/ m = 7 \/ m = 8
          \/ m = 9 \/ m = 10 \/ m = 11 \/ m = 12) as Hm by lia;
  repeat (destruct Hm as [Hm | Hm]); subst m.

Ltac split_div x k q r :=
  let E := fresh "E" q in
  let B := fresh "B" q in
  pose proof (Z.div_mod x k ltac:(lia)) as E;
  pose proof (Z.mod_pos_bound x k ltac:(lia)) as B;
  set (q := x / k) in *; set (r := x mod k) in *.


Lemma days_before_year_succ (y : Z) :
  _days_before_year (y + 1) = _days_before_year y + 365 + (if _is_leap y then 1 else 0).
Proof.
  unfold _days_before_year, _is_leap.
  destruct (y mod 4 =? 0) eqn:E4; destruct (y mod 100 =? 0) eqn:E100;
    destruct (y mod 400 =? 0) eqn:E400; simpl;
    rewrite ?Z.eqb_eq, ?Z.eqb_neq in *; divlia.
Qed.

Lemma days_before_year_mono (y1 y2 : Z) :
  y1 <= y2 -> _days_before_year y1 <= _days_before_year y2.
Proof. unfold _days_before_year. intros. divlia. Qed.

Lemma valid_date_iff (d : date) :
  valid_date d <->
  1 <= year d <= 9999 /\ 1 <= month d <= 12
  /\ 1 <= day d <= _days_in_month (year d) (month d).
Proof.
  unfold valid_date, valid_dateb, MINYEAR, MAXYEAR.
  rewrite !andb_true_iff, !Z.leb_le. tauto.
Qed.

Lemma day_of_year_bounds (y m d : Z) :
  1 <= m <= 12 -> 1 <= d <= _days_in_month y m ->
  1 <= _days_before_month y m + d <= 365 + (if _is_leap y then 1 else 0).
Proof.
  intros Hm0 Hd. unfold _days_in_month, _days_before_month in *.
  months m; destruct (_is_leap y); calc in *; lia.
Qed.

Lemma toordinal_bounds (d : date) :
  valid_date d -> 1 <= toordinal d <= _MAXORDINAL.
Proof.
  rewrite valid_date_iff. intros (Hy & Hm & Hd).
  pose proof (day_of_year_bounds _ _ _ Hm Hd) as Hdoy.
  pose proof (days_before_year_succ (year d)) as Hs.
  pose proof (days_before_year_mono 1 (year d) ltac:(lia)) as H1.
  pose proof (days_before_year_mono (year d + 1) 10000 ltac:(lia)) as H2.
  unfold toordinal, _ymd2ord, _MAXORDINAL.
  change (_days_before_year 1) with 0 in H1.
  change (_days_before_year 10000) with 3652059 in H2.
  lia.
Qed.

Lemma forall_below_spec (n : nat) (f : Z -> bool) :
  forall_below n f = true -> forall z, 0 <= z < Z.of_nat n -> f z = true.
Proof.
  induction n as [|k IH]; intros Hall z Hz.
  - simpl in Hz. lia.
  - cbn [forall_below] in Hall. apply andb_true_iff in Hall as [Hk Hrest].
    destruct (Z.eq_dec z (Z.of_nat k)) as [->|Hne]; [exact Hk|].
    apply IH; [exact Hrest | lia].
Qed.

Lemma month_day_of_ok (leapyear : bool) (n : Z) :
  0 <= n < 365 + (if leapyear then 1 else 0) -> month_day_ok leapyear n = true.
Proof.
  intros Hn. destruct leapyear.
  - apply (forall_below_spec 366); [vm_compute; reflexivity | simpl; lia].
  - apply (forall_below_spec 365); [vm_compute; reflexivity | simpl; lia].
Qed.

Lemma ord2ymd_unfold (n : Z) :
  _ord2ymd n =
  let n0 := n - 1 in
  let a := n0 / 146097 in
  let r400 := n0 mod 146097 in
  let b := r400 / 36524 in
  let r100 := r400 mod 36524 in
  let c := r100 / 1461 in
  let r4 := r100 mod 1461 in
  let e := r4 / 365 in
  let r := r4 mod 365 in
  let y := a * 400 + 1 + b * 100 + c * 4 + e in
  if (e =? 4) || (b =? 4) then mkdate (y - 1) 12 31
  else
    let leapyear := (e =? 3) && (negb (c =? 24) || (b =? 3)) in
    mkdate y (fst (month_day_of leapyear r)) (snd (month_day_of leapyear r)).
Proof.
  unfold _ord2ymd, month_day_of, _DI400Y, _DI100Y, _DI4Y. cbv zeta.
  destruct (_ || _); [reflexivity|].
  match goal with |- context [if ?c then _ else _] => destruct c end; reflexivity.
Qed.

Lemma is_leap_cycle (a b c e : Z) :
  0 <= a -> 0 <= b <= 3 -> 0 <= c <= 24 -> 0 <= e <= 3 ->
  _is_leap (a * 400 + 1 + b * 100 + c * 4 + e)
  = (e =? 3) && (negb (c =? 24) || (b =? 3)).
Proof.
  intros Ha Hb Hc He. unfold _is_leap.
  destruct (e =? 3) eqn:E3; destruct (c =? 24) eqn:E24;
    destruct (b =? 3) eqn:E33; cbn [andb orb negb];
    rewrite ?Z.eqb_eq, ?Z.eqb_neq in *;
    rewrite ?andb_true_iff, ?andb_false_iff, ?orb_true_iff, ?orb_false_iff,
      ?negb_true_iff, ?negb_false_iff, ?Z.eqb_eq, ?Z.eqb_neq;
    divlia.
Qed.

Lemma days_before_year_cycle (a b c e : Z) :
  0 <= a -> 0 <= b <= 3 -> 0 <= c <= 24 -> 0 <= e <= 3 ->
  _days_before_year (a * 400 + 1 + b * 100 + c * 4 + e)
  = 146097 * a + 36524 * b + 1461 * c + 365 * e.
Proof. intros. unfold _days_before_year. divlia. Qed.

Lemma fromordinal_spec (n : Z) :
  1 <= n <= _MAXORDINAL ->
  valid_date (fromordinal n) /\ toordinal (fromordinal n) = n.
Proof.
  unfold _MAXORDINAL. intros Hn. unfold fromordinal.
  rewrite ord2ymd_unfold. cbv zeta.
  split_div (n - 1) 146097 a r400.
  split_div r400 36524 b r100.
  split_div r100 1461 c r4.
  split_div r4 365 e r.
  clearbody r e r4 c r100 b r400 a.
  assert (Ha : 0 <= a <= 24) by lia.
  assert (Hb : 0 <= b <= 4) by lia.
  assert (Hc : 0 <= c <= 24) by lia.
  assert (He : 0 <= e <= 4) by lia.
  destruct ((e =? 4) || (b =? 4)) eqn:Hspecial.
  - (* the last day of a leap year *)
    assert (Hy : exists b' c', 0 <= b' <= 3 /\ 0 <= c' <= 24 /\
              a * 400 + 1 + b * 100 + c * 4 + e - 1
              = a * 400 + 1 + b' * 100 + c' * 4 + 3
              /\ ((c' =? 24) = false \/ (b' =? 3) = true)
              /\ n = 146097 * a + 36524 * b' + 1461 * c' + 365 * 3 + 366).
    { apply orb_true_iff in Hspecial as [H4|H4]; apply Z.eqb_eq in H4.
      - exists b, c. rewrite Z.eqb_neq. repeat split; lia.
      - exists 3, 24. rewrite Z.eqb_eq. repeat split; lia. }
    destruct Hy as (b' & c' & Hb' & Hc' & Hyear & Hleap & Hord).
    rewrite Hyear.
    assert (Hl : _is_leap (a * 400 + 1 + b' * 100 + c' * 4 + 3) = true).
    { rewrite is_leap_cycle by lia. destruct Hleap as [-> | ->]; 
      [reflexivity | apply orb_true_r]. }
    split.
    + apply valid_date_iff. cbn [year month day]. unfold _days_in_month.
      calc. lia.
    + unfold toordinal, _ymd2ord, _days_before_month. cbn [year month day].
      rewrite days_before_year_cycle by lia. rewrite Hl. calc. lia.
  - apply orb_false_iff in Hspecial as [H4 H4']. apply Z.eqb_neq in H4, H4'.
    set (leapyear := (e =? 3) && (negb (c =? 24) || (b =? 3))).
    assert (Hl : _is_leap (a * 400 + 1 + b * 100 + c * 4 + e) = leapyear)
      by (apply is_leap_cycle; lia).
    assert (Hr : 0 <= r < 365 + (if leapyear then 1 else 0))
      by (destruct leapyear; lia).
    pose proof (month_day_of_ok leapyear r Hr) as Hok.
    unfold month_day_ok in Hok.
    destruct (month_day_of leapyear r) as [m d]. cbn [fst snd].
    rewrite !andb_true_iff, !Z.leb_le, Z.eqb_eq in Hok.
    destruct Hok as ((((Hm1 & Hm2) & Hd1) & Hd2) & Hsum).
    split.
    + apply valid_date_iff. cbn [year month day]. unfold _days_in_month.
      rewrite Hl. lia.
    + unfold toordinal, _ymd2ord, _days_before_month. cbn [year month day].
      rewrite days_before_year_cycle by lia. rewrite Hl. lia.
Qed.

Lemma days_before_month_lt (y m1 m2 d1 : Z) :
  1 <= m1 -> m1 < m2 -> m2 <= 12 -> d1 <= _days_in_month y m1 ->
  _days_before_month y m1 + d1 <= _days_before_month y m2.
Proof.
  intros H1 H2 H3 Hd. unfold _days_before_month, _days_in_month in *.
  assert (Hm0 : 1 <= m1 <= 12) by lia.
  months m1; destruct (_is_leap y); calc in *;
    assert (Hm' : 1 <= m2 <= 12) by lia;
    months m2; calc; lia.
Qed.

Lemma compare_Lt_toordinal (a b : date) :
  valid_date a -> valid_date b ->
  PyDate.compare a b = Lt -> toordinal a < toordinal b.
Proof.
  rewrite !valid_date_iff. intros (Hya & Hma & Hda) (Hyb & Hmb & Hdb).
  unfold PyDate.compare, toordinal, _ymd2ord.
  destruct (Z.compare_spec (year a) (year b)) as [Ey | Ly | Gy];
    try discriminate.
  - rewrite <- Ey in *.
    destruct (Z.compare_spec (month a) (month b)) as [Em | Lm | Gm];
      try discriminate.
    + rewrite <- Em. rewrite Z.compare_lt_iff. lia.
    + intros _.
      pose proof (days_before_month_lt (year a) (month a) (month b) (day a)).
      lia.
  - intros _.
    pose proof (day_of_year_bounds _ _ _ Hma Hda).
    pose proof (day_of_year_bounds _ _ _ Hmb Hdb).
    pose proof (days_before_year_succ (year a)).
    pose proof (days_before_year_mono (year a + 1) (year b)).
    lia.
Qed.

Lemma compare_antisym (a b : date) :
  PyDate.compare b a = CompOpp (PyDate.compare a b).
Proof.
  unfold PyDate.compare.
  rewrite (Z.compare_antisym (year a)), (Z.compare_antisym (month a)),
    (Z.compare_antisym (day a)).
  destruct (year a ?= year b), (month a ?= month b), (day a ?= day b);
    reflexivity.
Qed.

Lemma compare_Eq_eq (a b : date) : PyDate.compare a b = Eq -> a = b.
Proof.
  unfold PyDate.compare. destruct a as [ya ma da], b as [yb mb db].
  cbn [year month day].
  destruct (Z.compare_spec ya yb); try discriminate.
  destruct (Z.compare_spec ma mb); try discriminate.
  destruct (Z.compare_spec da db); try discriminate.
  intros _. congruence.
Qed.

Lemma compare_toordinal (a b : date) :
  valid_date a -> valid_date b ->
  PyDate.compare a b = (toordinal a ?= toordinal b).
Proof.
  intros Ha Hb. destruct (PyDate.compare a b) eqn:E; symmetry.
  - apply compare_Eq_eq in E. subst b. apply Z.compare_refl.
  - apply Z.compare_lt_iff. now apply compare_Lt_toordinal.
  - apply Z.compare_gt_iff. apply compare_Lt_toordinal; try assumption.
    rewrite compare_antisym, E. reflexivity.
Qed.

Lemma leb_toordinal (a b : date) :
  valid_date a -> valid_date b ->
  PyDate.leb a b = (toordinal a <=? toordinal b).
Proof.
  intros Ha Hb. unfold PyDate.leb, Z.leb.
  now rewrite compare_toordinal.
Qed.

Lemma ltb_toordinal (a b : date) :
  valid_date a -> valid_date b ->
  PyDate.ltb a b = (toordinal a <? toordinal b).
Proof.
  intros Ha Hb. unfold PyDate.ltb, Z.ltb.
  now rewrite compare_toordinal.
Qed.

Lemma toordinal_inj (a b : date) :
  valid_date a -> valid_date b -> toordinal a = toordinal b -> a = b.
Proof.
  intros Ha Hb E. apply compare_Eq_eq.
  rewrite compare_toordinal by assumption. now apply Z.compare_eq_iff.
Qed.

Lemma fromordinal_toordinal (d : date) :
  valid_date d -> fromordinal (toordinal d) = d.
Proof.
  intros Hd. pose proof (toordinal_bounds d Hd) as Hb.
  destruct (fromordinal_spec _ Hb) as [Hv Ho].
  now apply toordinal_inj.
Qed.

(** * Facts about the business-day roll *)

Lemma add_days_in_range (d : date) (n : Z) :
  1 <= toordinal d + n <= _MAXORDINAL ->
  add_days d n = Ok (fromordinal (toordinal d + n)).
Proof.
  intros Hr. unfold add_days. cbv zeta.
  replace ((0 <? toordinal d + n) && (toordinal d + n <=? _MAXORDINAL))
    with true; [reflexivity|].
  symmetry. apply andb_true_iff. split; [apply Z.ltb_lt | apply Z.leb_le]; lia.
Qed.

Lemma add_days_out_of_range (d : date) (n : Z) :
  ~ (1 <= toordinal d + n <= _MAXORDINAL) ->
  add_days d n = Raise OverflowError.
Proof.
  intros Hr. unfold add_days. cbv zeta.
  destruct ((0 <? toordinal d + n) && (toordinal d + n <=? _MAXORDINAL)) eqn:E;
    [|reflexivity].
  apply andb_true_iff in E as [E1 E2].
  apply Z.ltb_lt in E1. apply Z.leb_le in E2. lia.
Qed.

Lemma new_date_valid (y m d : Z) :
  valid_date (mkdate y m d) -> new_date y m d = Ok (mkdate y m d).
Proof.
  unfold valid_date, valid_dateb, new_date. cbn [year month day].
  rewrite !andb_true_iff. intros (((((H1 & H2) & H3) & H4) & H5) & H6).
  now rewrite H1, H2, H3, H4, H5, H6.
Qed.

Lemma new_date_invalid (y m d : Z) :
  ~ valid_date (mkdate y m d) -> new_date y m d = Raise ValueError.
Proof.
  unfold valid_date, valid_dateb, new_date. cbn [year month day].
  intros Hn.
  destruct (MINYEAR <=? y), (y <=? MAXYEAR), (1 <=? m), (m <=? 12),
    (1 <=? d), (d <=? _days_in_month y m); cbn [andb negb];
    try reflexivity.
  exfalso. apply Hn. reflexivity.
Qed.

Lemma weekday_range (d : date) : 0 <= weekday d <= 6.
Proof. unfold weekday. divlia. Qed.

Lemma business_shift_weekday (w : Z) :
  0 <= w <= 6 -> 0 <= business_shift w <= 2
  /\ (w + business_shift w) mod 7 <= 4
  /\ (4 < w -> 0 < business_shift w).
Proof.
  intros Hw. unfold business_shift.
  destruct (w =? 5) eqn:E5; [|destruct (w =? 6) eqn:E6];
    rewrite ?Z.eqb_eq, ?Z.eqb_neq in *; divlia.
Qed.

Lemma next_business_day_spec (d : date) :
  valid_date d ->
  valid_date (next_business_day d)
  /\ toordinal (next_business_day d)
     = toordinal d + business_shift (weekday d)
  /\ weekday (next_business_day d) <= 4.
Proof.
  intros Hd. pose proof (toordinal_bounds d Hd) as Hb.
  pose proof (weekday_range d) as Hw.
  unfold next_business_day. destruct (4 <? weekday d) eqn:E.
  - apply Z.ltb_lt in E.
    assert (Hr : 1 <= toordinal d + business_shift (weekday d) <= _MAXORDINAL).
    { unfold business_shift, weekday, _MAXORDINAL in *.
      destruct (_ =? 5) eqn:E5; [|destruct (_ =? 6) eqn:E6];
        rewrite ?Z.eqb_eq, ?Z.eqb_neq in *; divlia. }
    destruct (fromordinal_spec _ Hr) as [Hv Ho]. repeat split; try assumption.
    unfold weekday at 1. rewrite Ho.
    unfold business_shift, weekday in *.
    destruct (_ =? 5) eqn:E5; [|destruct (_ =? 6) eqn:E6];
      rewrite ?Z.eqb_eq, ?Z.eqb_neq in *; divlia.
  - apply Z.ltb_ge in E. repeat split; try assumption.
    unfold business_shift.
    destruct (weekday d =? 5) eqn:E5; [|destruct (weekday d =? 6) eqn:E6];
      rewrite ?Z.eqb_eq, ?Z.eqb_neq in *; lia.
Qed.

(** [_business_date] returns, and returns the next business day: two
    recursive calls at most are needed, and no date is so close to
    [date.max] (a Friday) that rolling it overflows. *)
Lemma business_date_rec_spec (fuel : nat) (d : date) :
  valid_date d -> (3 <= fuel)%nat ->
  _business_date_rec fuel d = Ok (next_business_day d).
Proof.
  intros Hd Hfuel. pose proof (toordinal_bounds d Hd) as Hb.
  destruct fuel as [|[|[|fuel]]]; try lia. clear Hfuel.
  unfold next_business_day. cbn [_business_date_rec].
  destruct (4 <? weekday d) eqn:E; [|reflexivity].
  apply Z.ltb_lt in E.
  assert (Hr1 : 1 <= toordinal d + 1 <= _MAXORDINAL)
    by (unfold weekday, _MAXORDINAL in *; divlia).
  rewrite add_days_in_range by exact Hr1. cbn [bind].
  destruct (fromordinal_spec _ Hr1) as [Hv1 Ho1].
  unfold weekday at 1. rewrite Ho1.
  destruct (4 <? (toordinal d + 1 + 6) mod 7) eqn:E1.
  - apply Z.ltb_lt in E1.
    assert (Hr2 : 1 <= toordinal d + 1 + 1 <= _MAXORDINAL)
      by (unfold weekday, _MAXORDINAL in *; divlia).
    rewrite add_days_in_range by (rewrite Ho1; exact Hr2).
    cbn [bind]. rewrite Ho1.
    destruct (fromordinal_spec _ Hr2) as [Hv2 Ho2].
    unfold weekday at 1. rewrite Ho2.
    replace (4 <? (toordinal d + 1 + 1 + 6) mod 7) with false
      by (symmetry; apply Z.ltb_ge; unfold weekday in *; divlia).
    do 2 f_equal. unfold business_shift, weekday in *.
    replace ((toordinal d + 6) mod 7 =? 5) with true
      by (symmetry; apply Z.eqb_eq; divlia).
    lia.
  - apply Z.ltb_ge in E1. do 2 f_equal. unfold business_shift, weekday in *.
    replace ((toordinal d + 6) mod 7 =? 5) with false
      by (symmetry; apply Z.eqb_neq; divlia).
    replace ((toordinal d + 6) mod 7 =? 6) with true
      by (symmetry; apply Z.eqb_eq; divlia).
    reflexivity.
Qed.

Lemma business_date_spec (d : date) :
  valid_date d -> _business_date d = Ok (next_business_day d).
Proof. intros Hd. apply business_date_rec_spec; [exact Hd | lia]. Qed.

(** * Facts about the coupon loop *)


Lemma years_after_0 (d : date) : years_after d 0 = d.
Proof.
  destruct d as [y m dd]. unfold years_after. cbn [year month day].
  f_equal. lia.
Qed.

Lemma years_after_valid (d : date) (k : nat) :
  valid_date d -> not_feb29 d -> year d + Z.of_nat k <= MAXYEAR ->
  valid_date (years_after d k).
Proof.
  rewrite !valid_date_iff. unfold not_feb29, years_after, MAXYEAR.
  cbn [year month day]. intros (Hy & Hm & Hd) Hn Hk.
  repeat split; try lia.
  unfold _days_in_month in *.
  destruct (month d =? 2) eqn:E2.
  - apply Z.eqb_eq in E2. rewrite E2 in *. cbn [andb] in *.
    destruct (_is_leap (year d)), (_is_leap (year d + Z.of_nat k));
      calc in *; lia.
  - cbn [andb] in *. lia.
Qed.

Lemma years_after_toordinal (d : date) (k : nat) :
  valid_date d -> valid_date (years_after d k) ->
  toordinal d <= toordinal (years_after d k).
Proof.
  intros Hd Hk. apply Z.leb_le. rewrite <- leb_toordinal by assumption.
  unfold PyDate.leb, PyDate.compare, years_after. cbn [year month day].
  destruct (Z.compare_spec (year d) (year d + Z.of_nat k)); try lia;
    try reflexivity.
  now rewrite !Z.compare_refl.
Qed.

Lemma leb_years_after_S (d last : date) (k : nat) :
  PyDate.leb (years_after d (S k)) last = true ->
  PyDate.leb (years_after d k) last = true.
Proof.
  unfold PyDate.leb, PyDate.compare, years_after. cbn [year month day].
  destruct (Z.compare_spec (year d + Z.of_nat (S k)) (year last));
    destruct (Z.compare_spec (year d + Z.of_nat k) (year last));
    try lia; try reflexivity; try discriminate.
Qed.

Lemma leb_years_after_le (d last : date) (i k : nat) :
  (i <= k)%nat ->
  PyDate.leb (years_after d k) last = true ->
  PyDate.leb (years_after d i) last = true.
Proof.
  induction 1 as [|k Hle IH]; [trivial|].
  intros Hk. apply IH. now apply leb_years_after_S.
Qed.

Lemma leb_years_after_beyond (d last : date) (k : nat) :
  year last < year d + Z.of_nat k ->
  PyDate.leb (years_after d k) last = false.
Proof.
  unfold PyDate.leb, PyDate.compare, years_after. cbn [year month day].
  intros Hlt. destruct (Z.compare_spec (year d + Z.of_nat k) (year last));
    try lia; reflexivity.
Qed.

Lemma filter_prefix (f : nat -> bool) (n : nat) :
  (forall i, f (S i) = true -> f i = true) ->
  exists p, (p <= n)%nat /\ filter f (seq 0 n) = seq 0 p
            /\ (forall i, (i < p)%nat -> f i = true)
            /\ ((p < n)%nat -> f p = false).
Proof.
  intros Hdown.
  assert (Hle : forall i k, (i <= k)%nat -> f k = true -> f i = true).
  { induction 1 as [|k Hik IH]; auto. }
  induction n as [|n (p & Hp & Hfilter & Htrue & Hfalse)].
  - exists 0%nat. repeat split; lia.
  - rewrite seq_S, filter_app, Hfilter. cbn [filter Nat.add].
    destruct (f n) eqn:En.
    + assert (p = n) as ->.
      { destruct (Nat.eq_dec p n) as [|Hne]; [assumption|].
        assert (Hpn : (p < n)%nat) by lia.
        specialize (Hfalse Hpn). rewrite (Hle p n) in Hfalse by (lia || auto).
        discriminate. }
      exists (S n). rewrite seq_S. repeat split; try lia.
      intros i Hi. apply (Hle i n); [lia | exact En].
    + exists p. rewrite app_nil_r. repeat split; try lia; try assumption.
      intros _. destruct (Nat.eq_dec p n) as [->|Hne]; [exact En|].
      apply Hfalse. lia.
Qed.

Lemma stepped_dates_prefix (first last : date) :
  exists p,
    stepped_dates first last = map (years_after first) (seq 0 p)
    /\ (forall i, (i < p)%nat -> PyDate.leb (years_after first i) last = true)
    /\ PyDate.leb (years_after first p) last = false.
Proof.
  unfold stepped_dates.
  set (n := Z.to_nat (year last - year first + 1)).
  destruct (filter_prefix (fun i => PyDate.leb (years_after first i) last) n)
    as (p & Hp & Hfilter & Htrue & Hfalse).
  { intros i. apply leb_years_after_S. }
  exists p. repeat split; try assumption.
  - rewrite <- Hfilter. clear. induction (seq 0 n) as [|i l IH]; [reflexivity|].
    cbn [map filter]. destruct (PyDate.leb (years_after first i) last);
      cbn [map]; now rewrite IH.
  - destruct (Nat.eq_dec p n) as [->|Hne]; [|apply Hfalse; lia].
    apply leb_years_after_beyond. unfold n. lia.
Qed.

Section Loop.

Context {num : Type} `{PyNumber num}.

Lemma coupon_body (amount : num) (d : date) :
  valid_date d -> 10 <= toordinal d ->
  (before <- sub_days d 9 ;;
   ex_date <- _business_date before ;;
   payment_date <- _business_date d ;;
   Ok (Coupon_init amount ex_date payment_date))
  = Ok (coupon_on amount d).
Proof.
  intros Hd H10. pose proof (toordinal_bounds d Hd) as Hb.
  assert (Hr : 1 <= toordinal d + - 9 <= _MAXORDINAL) by lia.
  unfold sub_days. rewrite add_days_in_range by exact Hr. cbn [bind].
  destruct (fromordinal_spec _ Hr) as [Hv _].
  rewrite !business_date_spec by assumption. cbn [bind].
  unfold coupon_on, days_before. rewrite Z.add_opp_r. reflexivity.
Qed.

Lemma coupon_loop_unfold (fuel : nat) (last : date) (amount : num)
  (d : date) (acc : list (Coupon num)) :
  coupon_loop (S fuel) last amount d acc =
  if PyDate.leb d last then
    c <- (before <- sub_days d 9 ;;
          ex_date <- _business_date before ;;
          payment_date <- _business_date d ;;
          Ok (Coupon_init amount ex_date payment_date)) ;;
    next <- new_date (year d + 1) (month d) (day d) ;;
    coupon_loop fuel last amount next (acc ++ [c])
  else Ok acc.
Proof.
  cbn [coupon_loop]. destruct (PyDate.leb d last); [|reflexivity].
  destruct (sub_days d 9) as [before| |]; cbn [bind]; try reflexivity.
  destruct (_business_date before) as [ex| |]; cbn [bind]; try reflexivity.
  destruct (_business_date d) as [pay| |]; cbn [bind]; reflexivity.
Qed.

Lemma coupon_loop_run (last : date) (amount : num) (first : date) :
  valid_date first -> not_feb29 first -> 10 <= toordinal first ->
  forall (j k : nat) (acc : list (Coupon num)) (fuel : nat),
    year first + Z.of_nat (k + j) <= MAXYEAR ->
    (forall i, (k <= i < k + j)%nat ->
               PyDate.leb (years_after first i) last = true) ->
    PyDate.leb (years_after first (k + j)) last = false ->
    (j < fuel)%nat ->
    coupon_loop fuel last amount (years_after first k) acc
    = Ok (acc ++ map (coupon_on amount)
                     (map (years_after first) (seq k j))).
Proof.
  intros Hfirst Hfeb H10.
  induction j as [|j IH]; intros k acc fuel Hmax Htrue Hfalse Hfuel;
    (destruct fuel as [|fuel]; [lia|]); rewrite coupon_loop_unfold.
  - rewrite Nat.add_0_r in Hfalse. rewrite Hfalse. cbn [seq map].
    now rewrite app_nil_r.
  - rewrite Htrue by lia.
    assert (Hk : valid_date (years_after first k))
      by (apply years_after_valid; try assumption; lia).
    assert (Hk10 : 10 <= toordinal (years_after first k))
      by (pose proof (years_after_toordinal first k Hfirst Hk); lia).
    rewrite (coupon_body amount _ Hk Hk10). cbn [bind].
    assert (Hnext : valid_date (years_after first (S k)))
      by (apply years_after_valid; try assumption; lia).
    replace (new_date (year (years_after first k) + 1)
                      (month (years_after first k))
                      (day (years_after first k)))
      with (Ok (years_after first (S k))).
    2:{ symmetry. unfold years_after in *. cbn [year month day].
        replace (year first + Z.of_nat k + 1)
          with (year first + Z.of_nat (S k)) by lia.
        now apply new_date_valid. }
    cbn [bind]. rewrite IH.
    + cbn [seq map]. now rewrite <- app_assoc.
    + replace (S k + j)%nat with (k + S j)%nat by lia. exact Hmax.
    + intros i Hi. apply Htrue. lia.
    + replace (S k + j)%nat with (k + S j)%nat by lia. exact Hfalse.
    + lia.
Qed.

End Loop.

Section Series.

Context {num : Type} `{PyNumber num}.

Lemma coupon_loop_bound_pos (first : date) :
  valid_date first ->
  exists fuel, coupon_loop_bound first = S fuel
               /\ Z.of_nat (S fuel) = MAXYEAR + 1 - year first.
Proof.
  rewrite valid_date_iff. unfold coupon_loop_bound, MAXYEAR.
  intros (Hy & _). exists (Z.to_nat (9999 - year first)).
  split; lia.
Qed.

Lemma series_of_later_start (first last : date) (rate principle : num) :
  valid_date first -> PyDate.leb first last = false ->
  construct_yearly_coupon_series first last rate principle = Ok []
  /\ annual_coupons first last rate principle = [].
Proof.
  intros Hfirst Hlater. split.
  - unfold construct_yearly_coupon_series. cbv zeta.
    destruct (coupon_loop_bound_pos first Hfirst) as (fuel & -> & _).
    rewrite coupon_loop_unfold, Hlater. reflexivity.
  - unfold annual_coupons.
    destruct (stepped_dates_prefix first last) as (p & -> & Htrue & _).
    destruct p as [|p]; [reflexivity|].
    specialize (Htrue 0%nat ltac:(lia)). rewrite years_after_0 in Htrue.
    congruence.
Qed.

Lemma series_of_steps (first last : date) (rate principle : num) (p : nat) :
  valid_date first -> not_feb29 first -> 10 <= toordinal first ->
  year first + Z.of_nat p <= MAXYEAR ->
  (forall i, (i < p)%nat -> PyDate.leb (years_after first i) last = true) ->
  PyDate.leb (years_after first p) last = false ->
  construct_yearly_coupon_series first last rate principle
  = Ok (map (coupon_on (num_mul principle rate))
            (map (years_after first) (seq 0 p))).
Proof.
  intros Hfirst Hfeb H10 Hmax Htrue Hfalse.
  unfold construct_yearly_coupon_series. cbv zeta.
  destruct (coupon_loop_bound_pos first Hfirst) as (fuel & -> & Hfuel).
  pose proof (coupon_loop_run last (num_mul principle rate) first Hfirst
                Hfeb H10 p 0 [] (S fuel)) as Hrun.
  rewrite years_after_0 in Hrun. apply Hrun; try assumption.
  - intros i Hi. apply Htrue. lia.
  - lia.
Qed.

(** The bound on the loop is never reached: the series returns or
    raises. *)
Lemma coupon_loop_fuel (fuel : nat) :
  forall (last : date) (amount : num) (d : date) (acc : list (Coupon num)),
    valid_date d -> MAXYEAR + 1 - year d <= Z.of_nat fuel ->
    coupon_loop fuel last amount d acc <> OutOfFuel.
Proof.
  induction fuel as [|fuel IH]; intros last amount d acc Hd Hfuel.
  - apply valid_date_iff in Hd. unfold MAXYEAR in Hfuel. lia.
  - rewrite coupon_loop_unfold.
    destruct (PyDate.leb d last); [|discriminate].
    destruct (Z_le_gt_dec 10 (toordinal d)) as [H10 | Hnear].
    + rewrite (coupon_body amount d Hd H10). cbn [bind].
      destruct (valid_dateb (mkdate (year d + 1) (month d) (day d))) eqn:Hnext.
      * rewrite new_date_valid by exact Hnext. cbn [bind].
        apply IH; [exact Hnext|]. cbn [year]. lia.
      * rewrite new_date_invalid by (unfold valid_date; congruence).
        discriminate.
    + unfold sub_days. rewrite add_days_out_of_range by lia. discriminate.
Qed.

Lemma construct_yearly_coupon_series_fuel (first last : date)
  (rate principle : num) :
  valid_date first ->
  construct_yearly_coupon_series first last rate principle <> OutOfFuel.
Proof.
  intros Hfirst. unfold construct_yearly_coupon_series.
  apply coupon_loop_fuel; [exact Hfirst|].
  apply valid_date_iff in Hfirst. unfold coupon_loop_bound, MAXYEAR in *. lia.
Qed.

End Series.

(** ** C3 *)

(** C3 (amended).  Whenever every date that the loop computes exists --
    the first payment date is not February 29 and not within nine days
    of [date.min], and the stepping stops before the year [MAXYEAR] --
    [construct_yearly_coupon_series] returns exactly the coupons of the
    dates stepped one calendar year at a time from the first payment date
    up to the last, each paid on the next business day of its date, with
    ex-date the next business day of the date nine days earlier and
    amount [principle * rate]; and when the first payment date is after
    the last it returns the empty list. *)
Theorem construct_yearly_coupon_series_steps {num : Type} `{PyNumber num}
  (first_pay_date last_pay_date : date) (rate principle : num) :
  valid_date first_pay_date ->
  PyDate.leb first_pay_date last_pay_date = false
  \/ (not_feb29 first_pay_date /\ 10 <= toordinal first_pay_date
      /\ PyDate.leb (mkdate MAXYEAR (month first_pay_date)
                            (day first_pay_date))
                    last_pay_date = false) ->
  construct_yearly_coupon_series first_pay_date last_pay_date rate principle
  = Ok (annual_coupons first_pay_date last_pay_date rate principle)
  /\ (PyDate.leb first_pay_date last_pay_date = false ->
      construct_yearly_coupon_series first_pay_date last_pay_date rate
                                     principle = Ok []).
Proof.
  intros Hfirst Hcases.
  split; [|intros Hlater; now apply series_of_later_start].
  destruct (PyDate.leb first_pay_date last_pay_date) eqn:Hle.
  2:{ destruct (series_of_later_start first_pay_date last_pay_date rate
                  principle Hfirst Hle) as [-> ->]. reflexivity. }
  destruct Hcases as [Hlater | (Hfeb & H10 & Hstop)]; [discriminate|].
  unfold annual_coupons.
  destruct (stepped_dates_prefix first_pay_date last_pay_date)
    as (p & -> & Htrue & Hfalse).
  apply series_of_steps; try assumption.
  apply valid_date_iff in Hfirst as (Hy & _).
  destruct (Z_le_gt_dec (year first_pay_date + Z.of_nat p) MAXYEAR)
    as [Hok | Hover]; [exact Hok|].
  exfalso. unfold MAXYEAR in *.
  specialize (Htrue (Z.to_nat (9999 - year first_pay_date)) ltac:(lia)).
  unfold years_after in Htrue.
  replace (year first_pay_date
           + Z.of_nat (Z.to_nat (9999 - year first_pay_date)))
    with 9999 in Htrue by lia.
  congruence.
Qed.

(** The hypotheses of C3 hold of the coupon series of the repository's
    test. *)
Lemma construct_yearly_coupon_series_steps_witness :
  valid_date (mkdate 2020 11 21)
  /\ (construct_yearly_coupon_series (mkdate 2020 11 21) (mkdate 2030 11 21)
        (float_lit 1 100) 100%float
      = Ok (annual_coupons (mkdate 2020 11 21) (mkdate 2030 11 21)
              (float_lit 1 100) 100%float)).
Proof.
  split; [reflexivity|].
  apply (construct_yearly_coupon_series_steps (mkdate 2020 11 21)
           (mkdate 2030 11 21) (float_lit 1 100) 100%float).
  - reflexivity.
  - right. split; [|split].
    + intros [Hm _]. discriminate Hm.
    + vm_compute. discriminate.
    + reflexivity.
Defined.

(** C3 as stated fails where the stepping reaches the last year that a
    date can hold: the one coupon of 9999-06-01 is computed, and then
    the loop builds the date one year later. *)
Lemma construct_yearly_coupon_series_steps_counterexample :
  annual_coupons (mkdate 9999 6 1) (mkdate 9999 6 1)
                 (float_lit 1 100) 100%float
  = [coupon_on 1%float (mkdate 9999 6 1)]
  /\ construct_yearly_coupon_series (mkdate 9999 6 1) (mkdate 9999 6 1)
       (float_lit 1 100) 100%float
     = Raise ValueError.
Proof. split; vm_compute; reflexivity. Qed.

(** ** C10 *)

Lemma leap_year_successor (y : Z) : _is_leap y = true -> _is_leap (y + 1) = false.
Proof.
  unfold _is_leap. rewrite andb_true_iff, andb_false_iff, Z.eqb_eq, Z.eqb_neq.
  intros [H4 _]. left. divlia.
Qed.

(** C10.  When the first payment date is a February 29 that is not after
    the last payment date, [construct_yearly_coupon_series] raises
    [ValueError]: the coupon of that date is computed, and the date one
    year later does not exist. *)
Theorem construct_yearly_coupon_series_feb29 {num : Type} `{PyNumber num}
  (first_pay_date last_pay_date : date) (rate principle : num) :
  valid_date first_pay_date ->
  month first_pay_date = 2 -> day first_pay_date = 29 ->
  PyDate.leb first_pay_date last_pay_date = true ->
  construct_yearly_coupon_series first_pay_date last_pay_date rate principle
  = Raise ValueError.
Proof.
  intros Hfirst Hm Hd Hle.
  unfold construct_yearly_coupon_series. cbv zeta.
  destruct (coupon_loop_bound_pos first_pay_date Hfirst) as (fuel & -> & _).
  rewrite coupon_loop_unfold, Hle.
  pose proof Hfirst as Hv. apply valid_date_iff in Hv as (Hy & _ & Hday).
  assert (Hleap : _is_leap (year first_pay_date) = true).
  { unfold _days_in_month in Hday. rewrite Hm, Hd in Hday.
    destruct (_is_leap (year first_pay_date)); [reflexivity|].
    calc in *. lia. }
  assert (H10 : 10 <= toordinal first_pay_date).
  { unfold toordinal, _ymd2ord, _days_before_month. rewrite Hm, Hd, Hleap.
    pose proof (days_before_year_mono 1 (year first_pay_date) ltac:(lia)) as H1.
    change (_days_before_year 1) with 0 in H1. calc. lia. }
  rewrite (coupon_body _ _ Hfirst H10). cbn [bind].
  rewrite new_date_invalid; [reflexivity|].
  rewrite valid_date_iff. cbn [year month day]. unfold _days_in_month.
  rewrite Hm, Hd, (leap_year_successor _ Hleap). calc. lia.
Qed.

Lemma construct_yearly_coupon_series_feb29_witness :
  valid_date (mkdate 2020 2 29)
  /\ PyDate.leb (mkdate 2020 2 29) (mkdate 2024 2 29) = true
  /\ construct_yearly_coupon_series (mkdate 2020 2 29) (mkdate 2024 2 29)
       (float_lit 1 100) 100%float
     = Raise ValueError.
Proof.
  split; [reflexivity|]. split; [reflexivity|].
  apply (construct_yearly_coupon_series_feb29 (mkdate 2020 2 29)
           (mkdate 2024 2 29) (float_lit 1 100) 100%float);
    reflexivity.
Defined.

(** ** C8 *)

Lemma coupon_on_ex_before_payment {num : Type} (amount : num) (d : date) :
  valid_date d -> 10 <= toordinal d ->
  ex_before_payment (coupon_on amount d).
Proof.
  intros Hd H10. pose proof (toordinal_bounds d Hd) as Hb.
  assert (Hr : 1 <= toordinal d - 9 <= _MAXORDINAL) by lia.
  destruct (fromordinal_spec _ Hr) as [Hv Ho].
  destruct (next_business_day_spec _ Hv) as (Hv1 & Ho1 & _).
  destruct (next_business_day_spec _ Hd) as (Hv2 & Ho2 & _).
  pose proof (business_shift_weekday _ (weekday_range (fromordinal (toordinal d - 9)))).
  pose proof (business_shift_weekday _ (weekday_range d)).
  unfold ex_before_payment, coupon_on, Coupon_init, days_before.
  cbn [ex_date payment_date].
  rewrite leb_toordinal by assumption. apply Z.leb_le. lia.
Qed.

Lemma coupon_loop_ex_before_payment {num : Type} (fuel : nat) :
  forall (last : date) (amount : num) (d : date) (acc l : list (Coupon num)),
    valid_date d -> Forall ex_before_payment acc ->
    coupon_loop fuel last amount d acc = Ok l ->
    Forall ex_before_payment l.
Proof.
  induction fuel as [|fuel IH]; intros last amount d acc l Hd Hacc Hrun.
  - discriminate Hrun.
  - rewrite coupon_loop_unfold in Hrun.
    destruct (PyDate.leb d last); [|now injection Hrun as <-].
    destruct (Z_le_gt_dec 10 (toordinal d)) as [H10 | Hnear].
    + rewrite (coupon_body amount d Hd H10) in Hrun. cbn [bind] in Hrun.
      destruct (valid_dateb (mkdate (year d + 1) (month d) (day d))) eqn:Hnext.
      * rewrite new_date_valid in Hrun by exact Hnext. cbn [bind] in Hrun.
        apply (IH _ _ _ _ _ Hnext) in Hrun; [exact Hrun|].
        apply Forall_app. split; [exact Hacc|].
        constructor; [|constructor].
        now apply coupon_on_ex_before_payment.
      * rewrite new_date_invalid in Hrun by (unfold valid_date; congruence).
        discriminate Hrun.
    + unfold sub_days in Hrun.
      rewrite add_days_out_of_range in Hrun by lia. discriminate Hrun.
Qed.

(** C8.  Every coupon that [construct_yearly_coupon_series] returns, and
    so every coupon of a bond that [construct] returns, has its ex-date
    on or before its payment date. *)
Theorem coupons_ex_before_payment :
  (forall (num : Type) (N : PyNumber num) (first_pay_date last_pay_date : date)
          (rate principle : num) (coupons : list (Coupon num)),
      valid_date first_pay_date ->
      construct_yearly_coupon_series first_pay_date last_pay_date rate
                                     principle = Ok coupons ->
      Forall (fun c => PyDate.leb (ex_date c) (payment_date c) = true) coupons)
  /\ (forall (first_coupon_pay_date second_coupon_pay_date maturity_date : date)
             (coupon_rate principle : float) (bond : FixedRateACGB float),
         valid_date first_coupon_pay_date ->
         valid_date second_coupon_pay_date ->
         construct first_coupon_pay_date second_coupon_pay_date maturity_date
                   coupon_rate principle = Ok bond ->
         Forall (fun c => PyDate.leb (ex_date c) (payment_date c) = true)
                (coupons bond)).
Proof.
  assert (Hseries : forall (num : Type) (N : PyNumber num) first last
                      (rate principle : num) cs,
             valid_date first ->
             construct_yearly_coupon_series first last rate principle = Ok cs ->
             Forall ex_before_payment cs).
  { intros num N first last rate principle cs Hfirst Hrun.
    unfold construct_yearly_coupon_series in Hrun.
    eapply coupon_loop_ex_before_payment; eauto. }
  split; [exact Hseries|].
  intros d1 d2 dm rate principle bond Hd1 Hd2 Hrun.
  unfold construct in Hrun.
  destruct (construct_yearly_coupon_series d1 dm _ principle) as [ca| |] eqn:Ea;
    try discriminate Hrun.
  destruct (construct_yearly_coupon_series d2 dm _ principle) as [cb| |] eqn:Eb;
    try discriminate Hrun.
  cbn [bind] in Hrun. injection Hrun as <-.
  cbn [coupons FixedRateACGB_init]. apply Forall_app. split.
  - exact (Hseries _ _ _ _ _ _ _ Hd1 Ea).
  - exact (Hseries _ _ _ _ _ _ _ Hd2 Eb).
Qed.

Lemma coupons_ex_before_payment_witness :
  valid_date (mkdate 2020 11 21) /\ valid_date (mkdate 2021 5 21)
  /\ exists bond,
      construct (mkdate 2020 11 21) (mkdate 2021 5 21) (mkdate 2030 5 21)
                (float_lit 1 100) 100%float = Ok bond
      /\ Forall (fun c => PyDate.leb (ex_date c) (payment_date c) = true)
                (coupons bond).
Proof.
  split; [reflexivity|]. split; [reflexivity|].
  destruct (construct (mkdate 2020 11 21) (mkdate 2021 5 21) (mkdate 2030 5 21)
                      (float_lit 1 100) 100%float) as [bond| |] eqn:E;
    [|vm_compute in E; discriminate E..].
  exists bond. split; [reflexivity|].
  apply (proj2 coupons_ex_before_payment (mkdate 2020 11 21) (mkdate 2021 5 21)
           (mkdate 2030 5 21) (float_lit 1 100) 100%float bond);
    [reflexivity | reflexivity | exact E].
Defined.

(** ** C4 *)

Lemma leb_years_after_same (d : date) (i n : nat) :
  PyDate.leb (years_after d i) (years_after d n) = (i <=? n)%nat.
Proof.
  unfold PyDate.leb, PyDate.compare, years_after. cbn [year month day].
  rewrite !Z.compare_refl.
  destruct (Z.compare_spec (year d + Z.of_nat i) (year d + Z.of_nat n));
    symmetry; [apply Nat.leb_le | apply Nat.leb_le | apply Nat.leb_gt]; lia.
Qed.

Lemma coupon_on_weekdays {num : Type} (amount : num) (d : date) :
  valid_date d -> 10 <= toordinal d ->
  0 <= weekday (payment_date (coupon_on amount d)) <= 4
  /\ 0 <= weekday (ex_date (coupon_on amount d)) <= 4.
Proof.
  intros Hd H10. pose proof (toordinal_bounds d Hd) as Hb.
  assert (Hr : 1 <= toordinal d - 9 <= _MAXORDINAL) by lia.
  destruct (fromordinal_spec _ Hr) as [Hv _].
  destruct (next_business_day_spec _ Hv) as (_ & _ & Hw1).
  destruct (next_business_day_spec _ Hd) as (_ & _ & Hw2).
  unfold coupon_on, Coupon_init, days_before. cbn [ex_date payment_date].
  pose proof (weekday_range (next_business_day d)).
  pose proof (weekday_range (next_business_day (fromordinal (toordinal d - 9)))).
  lia.
Qed.

Lemma coupon_on_rolls {num : Type} (amount : num) (d : date) :
  valid_date d -> 10 <= toordinal d ->
  exists before,
    sub_days d 9 = Ok before
    /\ _business_date before = Ok (ex_date (coupon_on amount d))
    /\ _business_date d = Ok (payment_date (coupon_on amount d)).
Proof.
  intros Hd H10. pose proof (toordinal_bounds d Hd) as Hb.
  assert (Hr : 1 <= toordinal d + - 9 <= _MAXORDINAL) by lia.
  destruct (fromordinal_spec _ Hr) as [Hv _].
  exists (fromordinal (toordinal d + - 9)).
  unfold sub_days. rewrite add_days_in_range by exact Hr.
  rewrite !business_date_spec by assumption.
  unfold coupon_on, Coupon_init, days_before. cbn [ex_date payment_date].
  rewrite Z.add_opp_r. repeat split.
Qed.

(** C4 (amended).  For a first payment date that is not February 29 and
    not within nine days of [date.min], and a last payment date exactly
    [n] whole years after it and before the year [MAXYEAR],
    [construct_yearly_coupon_series] returns exactly [n + 1] coupons;
    the [k]-th has a payment date and an ex-date that fall on a weekday,
    its payment date is the business-day roll of the date [k] years
    after the first, and its ex-date is the business-day roll of the
    day nine days before that (unrolled) date. *)
Theorem construct_yearly_coupon_series_count {num : Type} `{PyNumber num}
  (first_pay_date : date) (n : nat) (rate principle : num) :
  valid_date first_pay_date -> not_feb29 first_pay_date ->
  10 <= toordinal first_pay_date ->
  year first_pay_date + Z.of_nat n < MAXYEAR ->
  exists coupons,
    construct_yearly_coupon_series first_pay_date
      (years_after first_pay_date n) rate principle = Ok coupons
    /\ length coupons = S n
    /\ forall k, (k <= n)%nat ->
         exists c before,
           nth_error coupons k = Some c
           /\ 0 <= weekday (payment_date c) <= 4
           /\ 0 <= weekday (ex_date c) <= 4
           /\ _business_date (years_after first_pay_date k)
              = Ok (payment_date c)
           /\ sub_days (years_after first_pay_date k) 9 = Ok before
           /\ _business_date before = Ok (ex_date c).
Proof.
  intros Hfirst Hfeb H10 Hmax.
  eexists. split; [|split].
  - apply (series_of_steps first_pay_date _ rate principle (S n));
      try assumption.
    + lia.
    + intros i Hi. rewrite leb_years_after_same. apply Nat.leb_le. lia.
    + rewrite leb_years_after_same. apply Nat.leb_gt. lia.
  - now rewrite !length_map, length_seq.
  - intros k Hk.
    assert (Hvk : valid_date (years_after first_pay_date k))
      by (apply years_after_valid; try assumption; lia).
    assert (Hk10 : 10 <= toordinal (years_after first_pay_date k))
      by (pose proof (years_after_toordinal _ k Hfirst Hvk); lia).
    destruct (coupon_on_rolls (num_mul principle rate) _ Hvk Hk10)
      as (before & Hsub & Hex & Hpay).
    destruct (coupon_on_weekdays (num_mul principle rate) _ Hvk Hk10)
      as (Hw1 & Hw2).
    exists (coupon_on (num_mul principle rate) (years_after first_pay_date k)),
      before.
    repeat split; try assumption; try lia.
    rewrite !nth_error_map.
    replace (nth_error (seq 0 (S n)) k) with (Some k); [reflexivity|].
    symmetry. rewrite nth_error_nth' with (d := 0%nat)
      by (rewrite length_seq; lia).
    rewrite seq_nth by lia. reflexivity.
Qed.

Lemma construct_yearly_coupon_series_count_witness :
  valid_date (mkdate 2020 11 21)
  /\ exists coupons,
      construct_yearly_coupon_series (mkdate 2020 11 21)
        (years_after (mkdate 2020 11 21) 10) (float_lit 1 100) 100%float
      = Ok coupons
      /\ length coupons = 11%nat.
Proof.
  split; [reflexivity|].
  destruct (construct_yearly_coupon_series_count (mkdate 2020 11 21) 10
              (float_lit 1 100) 100%float)
    as (coupons & Hrun & Hlen & _).
  - reflexivity.
  - intros [Hm _]. discriminate Hm.
  - vm_compute. discriminate.
  - reflexivity.
  - exists coupons. split; assumption.
Defined.

(** C4 as stated fails on the repository's own test date: the coupon of
    Saturday 2020-11-21 is paid on Monday 2020-11-23 and goes ex on
    Thursday 2020-11-12, while the roll of nine days before the payment
    date is Monday 2020-11-16. *)
Lemma construct_yearly_coupon_series_count_counterexample :
  exists c,
    construct_yearly_coupon_series (mkdate 2020 11 21) (mkdate 2020 11 21)
      (float_lit 1 100) 100%float = Ok [c]
    /\ payment_date c = mkdate 2020 11 23
    /\ ex_date c = mkdate 2020 11 12
    /\ (before <- sub_days (payment_date c) 9 ;; _business_date before)
       = Ok (mkdate 2020 11 16).
Proof.
  eexists. split; [vm_compute; reflexivity|].
  repeat split; vm_compute; reflexivity.
Qed.

(** * Valuation *)

Lemma leb_ltb_negb (a b : date) : PyDate.leb a b = negb (PyDate.ltb b a).
Proof.
  unfold PyDate.leb, PyDate.ltb. rewrite (compare_antisym a b).
  destruct (PyDate.compare a b); reflexivity.
Qed.

Section Valuation.

Context {num : Type} `{PyNumber num}.

Lemma discounted_from_pipeline (curve : date -> num) (as_of : date)
  (cs : list (Coupon num)) (acc : num) :
  fold_left num_add
    (map (fun c => num_mul (curve (payment_date c)) (coupon_amount c))
         (filter (fun c => PyDate.gtb (ex_date c) as_of) cs))
    acc
  = discounted_from curve as_of acc cs.
Proof.
  revert acc. induction cs as [|c cs IH]; intros acc; [reflexivity|].
  cbn [filter discounted_from]. unfold PyDate.gtb at 1.
  destruct (PyDate.ltb as_of (ex_date c)); cbn [map fold_left]; apply IH.
Qed.

Lemma discounted_from_skip (curve : date -> num) (as_of : date)
  (before after : list (Coupon num)) (c : Coupon num) (acc : num) :
  PyDate.leb (ex_date c) as_of = true ->
  discounted_from curve as_of acc (before ++ c :: after)
  = discounted_from curve as_of acc (before ++ after).
Proof.
  intros Hex. rewrite leb_ltb_negb in Hex. apply negb_true_iff in Hex.
  revert acc. induction before as [|b before IH]; intros acc.
  - cbn [app discounted_from]. now rewrite Hex.
  - cbn [app discounted_from]. destruct (PyDate.ltb as_of (ex_date b)); apply IH.
Qed.

Lemma dirty_value_unfold (bond : FixedRateACGB num) (curve : date -> num)
  (as_of : date) :
  calculate_dirty_value bond curve as_of
  = num_add (discounted_from curve as_of num_zero (coupons bond))
            (num_mul (curve (maturity bond)) (principle bond)).
Proof.
  unfold calculate_dirty_value, py_sum. cbv zeta.
  now rewrite discounted_from_pipeline.
Qed.

End Valuation.

(** ** C1 *)

(** C1.  The dirty value of a bond is the sum, taken in coupon order from
    zero, of [curve(payment_date) * coupon_amount] over the coupons whose
    ex-date is strictly after the as-of date, plus
    [curve(maturity) * principle]; a coupon whose ex-date is on or before
    the as-of date contributes nothing: the value is that of the bond
    without it. *)
Theorem calculate_dirty_value_sum {num : Type} `{PyNumber num}
  (bond : FixedRateACGB num) (curve : date -> num) (as_of : date) :
  calculate_dirty_value bond curve as_of
  = num_add (discounted_from curve as_of num_zero (coupons bond))
            (num_mul (curve (maturity bond)) (principle bond))
  /\ forall (before after : list (Coupon num)) (c : Coupon num),
       coupons bond = before ++ c :: after ->
       PyDate.leb (ex_date c) as_of = true ->
       calculate_dirty_value bond curve as_of
       = calculate_dirty_value (with_coupons bond (before ++ after))
                               curve as_of.
Proof.
  split; [apply dirty_value_unfold|].
  intros before after c Hcs Hex. rewrite !dirty_value_unfold.
  cbn [with_coupons coupons maturity principle]. rewrite Hcs.
  now rewrite discounted_from_skip.
Qed.

Lemma calculate_dirty_value_sum_witness :
  let c1 := Coupon_init 5 (mkdate 2020 5 12) (mkdate 2020 5 21) in
  let c2 := Coupon_init 5 (mkdate 2020 11 12) (mkdate 2020 11 23) in
  let bond := FixedRateACGB_init 100 [c1; c2] (mkdate 2020 11 23) in
  PyDate.leb (ex_date c1) (mkdate 2020 7 23) = true
  /\ calculate_dirty_value bond (fun _ => 1) (mkdate 2020 7 23)
     = calculate_dirty_value (with_coupons bond [c2]) (fun _ => 1)
                             (mkdate 2020 7 23).
Proof.
  intros c1 c2 bond. split; [reflexivity|].
  apply (proj2 (calculate_dirty_value_sum bond (fun _ => 1) (mkdate 2020 7 23))
               [] [c2] c1); reflexivity.
Defined.

(** ** C9 *)

(** C9.  After [bond.market_dirty_price = v], both [bond.market_value] and
    [bond.market_dirty_price] read [v]: the property bound to
    [market_dirty_price] is the copy of [market_value] that carries the
    setter, and both read the one field that the setter writes.  The
    terms of the bond are untouched. *)
Theorem market_dirty_price_set_get {num : Type} `{PyNumber num}
  (bond : FixedRateACGB num) (v : num) :
  exists bond',
    prop_set market_dirty_price bond v = Ok bond'
    /\ prop_get market_value bond' = Ok v
    /\ prop_get market_dirty_price bond' = Ok v
    /\ principle bond' = principle bond
    /\ coupons bond' = coupons bond
    /\ maturity bond' = maturity bond.
Proof.
  exists (market_dirty_price_fset bond v). repeat split.
Qed.

(** The name [market_value] itself has no setter. *)
Lemma market_value_read_only {num : Type} `{PyNumber num}
  (bond : FixedRateACGB num) (v : num) :
  prop_set market_value bond v = Raise AttributeError.
Proof. reflexivity. Qed.

(** * Facts about binary64 *)

Lemma SF64add_comm (x y : spec_float) : SF64add x y = SF64add y x.
Proof.
  unfold SF64add, SFadd.
  destruct x as [[|]|[|]| |sx mx ex], y as [[|]|[|]| |sy my ey];
    try reflexivity.
  rewrite (Z.min_comm ex ey), Z.add_comm. reflexivity.
Qed.

Lemma float_add_comm (x y : float) : (x + y = y + x)%float.
Proof.
  apply Prim2SF_inj. rewrite !FloatAxioms.add_spec. apply SF64add_comm.
Qed.

Lemma digits2_pos_xO (p : positive) :
  Zpos (digits2_pos p~0) = Zpos (digits2_pos p) + 1.
Proof. cbn [digits2_pos]. lia. Qed.

(** Multiplying by one is exact: the product of the mantissas is the
    mantissa shifted by 52 bits, and rounding shifts it back. *)
Lemma SF64mul_1_l (x : spec_float) :
  valid_binary x = true -> SF64mul (Prim2SF 1) x = x.
Proof.
  change (Prim2SF 1) with (S754_finite false 4503599627370496 (-52)).
  unfold SF64mul, SFmul.
  destruct x as [s|s| |s m e]; try reflexivity.
  intros Hv. cbn [valid_binary] in Hv. unfold bounded, canonical_mantissa in Hv.
  apply andb_true_iff in Hv as [Hc He]. apply Z.eqb_eq in Hc.
  cbn [xorb]. unfold binary_round_aux, shr_fexp.
  cbn [Pos.mul]. cbn [Zdigits2].
  rewrite !digits2_pos_xO.
  match goal with |- context [fexp prec emax ?a] =>
    replace (fexp prec emax a) with e by (rewrite <- Hc; f_equal; lia) end.
  match goal with |- context [shr _ _ ?a] =>
    replace a with 52 by lia end.
  cbn [shr shr_record_of_loc iter_pos shr_1 orb shr_m loc_of_shr_record
       round_nearest_even Zdigits2].
  match goal with |- context [fexp prec emax ?a] =>
    replace (fexp prec emax a) with e by (rewrite <- Hc; f_equal; lia) end.
  match goal with |- context [shr _ _ ?a] =>
    replace a with 0 by lia end.
  cbn [shr shr_m].
  match goal with |- context [Z.leb ?a ?b] =>
    replace (Z.leb a b) with true by (rewrite <- He; f_equal; lia) end.
  f_equal. lia.
Qed.

Lemma float_mul_1_l (x : float) : (1 * x = x)%float.
Proof.
  apply Prim2SF_inj. rewrite FloatAxioms.mul_spec.
  apply SF64mul_1_l, Prim2SF_valid.
Qed.

#[export] Instance float_unit_laws : UnitLaws float.
Proof. split; [exact float_mul_1_l | exact float_add_comm]. Qed.

#[export] Instance int_unit_laws : UnitLaws Z.
Proof.
  split; intros; cbv [num_mul num_add num_one num_zero int_number]; lia.
Qed.

#[export] Instance int_exact_laws : ExactLaws Z.
Proof.
  split; intros; cbv [num_mul num_add num_one num_zero int_number]; lia.
Qed.

(** ** C7 *)

Section Flat.

Context {num : Type} `{PyNumber num}.

Lemma fold_flat_one `{!UnitLaws num} (as_of : date) (cs : list (Coupon num))
  (acc : num) :
  discounted_from (fun _ => num_one) as_of acc cs
  = fold_left num_add
      (map coupon_amount (filter (fun c => PyDate.gtb (ex_date c) as_of) cs))
      acc.
Proof.
  revert acc. induction cs as [|c cs IH]; intros acc; [reflexivity|].
  cbn [discounted_from filter]. unfold PyDate.gtb at 1.
  destruct (PyDate.ltb as_of (ex_date c)); cbn [map fold_left];
    rewrite ?num_mul_1_l; apply IH.
Qed.

Lemma fold_flat_scale `{!UnitLaws num} `{!ExactLaws num} (k : num)
  (as_of : date) (cs : list (Coupon num)) (acc : num) :
  discounted_from (fun _ => k) as_of (num_mul k acc) cs
  = num_mul k (discounted_from (fun _ => num_one) as_of acc cs).
Proof.
  revert acc. induction cs as [|c cs IH]; intros acc; [reflexivity|].
  cbn [discounted_from].
  destruct (PyDate.ltb as_of (ex_date c)); [|apply IH].
  rewrite <- IH, num_mul_add_distr_l, num_mul_1_l. reflexivity.
Qed.

Lemma dirty_value_flat_one `{!UnitLaws num} (bond : FixedRateACGB num)
  (as_of : date) :
  calculate_dirty_value bond (fun _ => num_one) as_of
  = num_add (principle bond)
      (py_sum (map coupon_amount
                   (filter (fun c => PyDate.gtb (ex_date c) as_of)
                           (coupons bond)))).
Proof.
  rewrite dirty_value_unfold, fold_flat_one, num_mul_1_l.
  apply num_add_comm.
Qed.

Lemma dirty_value_flat_scale `{!UnitLaws num} `{!ExactLaws num}
  (bond : FixedRateACGB num) (as_of : date) (k : num) :
  calculate_dirty_value bond (fun _ => k) as_of
  = num_mul k (calculate_dirty_value bond (fun _ => num_one) as_of).
Proof.
  rewrite !dirty_value_unfold.
  rewrite num_mul_add_distr_l, num_mul_1_l.
  rewrite <- fold_flat_scale, num_mul_0_r. reflexivity.
Qed.

End Flat.

(** In binary64 the flat curve 1 gives the face value plus the coupons
    still due, exactly. *)
Corollary dirty_value_flat_one_float (bond : FixedRateACGB float)
  (as_of : date) :
  calculate_dirty_value bond (fun _ => 1%float) as_of
  = (principle bond
     + py_sum (map coupon_amount
                   (filter (fun c => PyDate.gtb (ex_date c) as_of)
                           (coupons bond))))%float.
Proof. exact (dirty_value_flat_one bond as_of). Qed.




(** * Facts about the order of dates and about [sorted] *)

Lemma leb_iff (a b : date) :
  PyDate.leb a b = true <->
  year a < year b
  \/ (year a = year b
      /\ (month a < month b \/ (month a = month b /\ day a <= day b))).
Proof.
  unfold PyDate.leb, PyDate.compare.
  destruct (Z.compare_spec (year a) (year b));
    destruct (Z.compare_spec (month a) (month b));
    destruct (Z.compare_spec (day a) (day b));
    split; intros; try discriminate; try reflexivity; lia.
Qed.

Lemma leb_refl (a : date) : PyDate.leb a a = true.
Proof. apply leb_iff. lia. Qed.

Lemma leb_trans (a b c : date) :
  PyDate.leb a b = true -> PyDate.leb b c = true -> PyDate.leb a c = true.
Proof. rewrite !leb_iff. lia. Qed.

Lemma leb_total (a b : date) :
  PyDate.leb a b = true \/ PyDate.leb b a = true.
Proof. rewrite !leb_iff. lia. Qed.

Lemma leb_antisym (a b : date) :
  PyDate.leb a b = true -> PyDate.leb b a = true -> a = b.
Proof.
  rewrite !leb_iff. destruct a, b. cbn [year month day]. intros.
  f_equal; lia.
Qed.

Section Sorted.

Context {A : Type} (key : A -> date).

Local Abbreviation key_le := (key_le key).

Lemma insert_by_In (x z : A) (l : list A) :
  In z (insert_by key x l) <-> z = x \/ In z l.
Proof.
  induction l as [|y l IH]; cbn [insert_by In]; [intuition congruence|].
  destruct (PyDate.ltb (key y) (key x)); cbn [In]; [rewrite IH|];
    intuition congruence.
Qed.

Lemma sorted_In (z : A) (l : list A) : In z (sorted key l) <-> In z l.
Proof.
  induction l as [|x l IH]; [reflexivity|].
  cbn [sorted fold_right In]. fold (sorted key l).
  rewrite insert_by_In, IH. intuition congruence.
Qed.

Lemma insert_by_Forall (P : A -> Prop) (x : A) (l : list A) :
  P x -> Forall P l -> Forall P (insert_by key x l).
Proof.
  intros Hx Hl. apply Forall_forall. intros z Hz.
  apply insert_by_In in Hz as [-> | Hz]; [exact Hx|].
  now apply (proj1 (Forall_forall P l) Hl).
Qed.

Lemma insert_by_sorted (x : A) (l : list A) :
  StronglySorted key_le l -> StronglySorted key_le (insert_by key x l).
Proof.
  induction 1 as [|y l Hl IH Hy]; cbn [insert_by].
  - repeat constructor.
  - destruct (PyDate.ltb (key y) (key x)) eqn:E.
    + constructor; [exact IH|].
      apply insert_by_Forall; [|exact Hy].
      unfold key_le. rewrite leb_ltb_negb.
      apply negb_true_iff.
      unfold PyDate.ltb in *. rewrite (compare_antisym (key y) (key x)).
      destruct (PyDate.compare (key y) (key x)); cbn; congruence.
    + assert (Hxy : key_le x y)
        by (unfold key_le; rewrite leb_ltb_negb, E; reflexivity).
      constructor; [now constructor|].
      constructor; [exact Hxy|].
      eapply Forall_impl; [|exact Hy].
      intros z Hz. exact (leb_trans _ _ _ Hxy Hz).
Qed.

Lemma sorted_sorted (l : list A) : StronglySorted key_le (sorted key l).
Proof.
  induction l as [|x l IH]; [constructor|].
  cbn [sorted fold_right]. now apply insert_by_sorted.
Qed.

Lemma strongly_sorted_last (l : list A) (x d : A) :
  StronglySorted key_le (x :: l) ->
  Forall (fun y => key_le y (last (x :: l) d)) (x :: l).
Proof.
  revert x. induction l as [|y l IH]; intros x Hs.
  - constructor; [apply leb_refl | constructor].
  - apply StronglySorted_inv in Hs as [Hl Hx].
    specialize (IH y Hl).
    change (last (x :: y :: l) d) with (last (y :: l) d).
    constructor; [|exact IH].
    apply Forall_inv in Hx. apply Forall_inv in IH.
    exact (leb_trans _ _ _ Hx IH).
Qed.

End Sorted.

Lemma py_index_first {A : Type} (x : A) (l : list A) :
  py_index (x :: l) 0 = Ok x.
Proof.
  unfold py_index. cbv zeta. cbn [length].
  replace (Z.of_nat (S (length l)) <=? 0) with false
    by (symmetry; apply Z.leb_gt; lia).
  reflexivity.
Qed.

Lemma nth_last {A : Type} (l : list A) (x d : A) :
  nth (length l) (x :: l) d = last (x :: l) d.
Proof.
  revert x. induction l as [|y l IH]; intros x; [reflexivity|].
  change (nth (length (y :: l)) (x :: y :: l) d) with (nth (length l) (y :: l) d).
  now rewrite IH.
Qed.

Lemma last_cons_In {A : Type} (l : list A) (x d : A) :
  In (last (x :: l) d) (x :: l).
Proof.
  revert x. induction l as [|y l IH]; intros x; [now left|].
  change (last (x :: y :: l) d) with (last (y :: l) d). right. apply IH.
Qed.

Lemma py_index_last {A : Type} (x : A) (l : list A) :
  py_index (x :: l) (-1) = Ok (last (x :: l) x).
Proof.
  unfold py_index. cbv zeta.
  change (length (x :: l)) with (S (length l)).
  change (-1 <? 0) with true. cbv iota.
  replace (-1 + Z.of_nat (S (length l)) <? 0) with false
    by (symmetry; apply Z.ltb_ge; lia).
  replace (Z.of_nat (S (length l)) <=? -1 + Z.of_nat (S (length l)))
    with false by (symmetry; apply Z.leb_gt; lia).
  cbn [orb].
  replace (Z.to_nat (-1 + Z.of_nat (S (length l)))) with (length l) by lia.
  rewrite nth_error_nth' with (d := x) by (cbn [length]; lia).
  now rewrite nth_last.
Qed.

(** * The knots of the fit *)


Lemma nth_error_removelast {A : Type} (l : list A) (i : nat) :
  (S i < length l)%nat -> nth_error (removelast l) i = nth_error l i.
Proof.
  revert i. induction l as [|x l IH]; intros i Hi; [cbn in Hi; lia|].
  destruct l as [|y l]; [cbn in Hi; lia|].
  change (removelast (x :: y :: l)) with (x :: removelast (y :: l)).
  destruct i as [|i]; [reflexivity|].
  cbn [nth_error]. apply IH. cbn [length] in *. lia.
Qed.


Lemma linspace_unfold (start stop : float) (num : Z) :
  0 <= num ->
  linspace start stop num
  = Ok (let y := map (fun i => linspace_raw start stop num (Z.of_nat i))
                     (seq 0 (Z.to_nat num)) in
        if 1 <? num then removelast y ++ [stop] else y).
Proof.
  intros Hnum. unfold linspace, linspace_raw.
  replace (num <? 0) with false by (symmetry; apply Z.ltb_ge; lia).
  cbv zeta. do 2 f_equal.
  destruct (0 <? num - 1);
    [destruct (_ =? 0)%float|]; rewrite !map_map; reflexivity.
Qed.

Lemma linspace_spec (start stop : float) (num : Z) (l : list float) :
  linspace start stop num = Ok l ->
  0 <= num
  /\ Z.of_nat (length l) = num
  /\ (2 <= num -> nth_error l (Z.to_nat (num - 1)) = Some stop)
  /\ (forall i, 0 <= i < num - 1 ->
        nth_error l (Z.to_nat i) = Some (linspace_inner start stop num i)).
Proof.
  intros Hl.
  assert (Hnum : 0 <= num).
  { unfold linspace in Hl. destruct (num <? 0) eqn:E; [discriminate|].
    now apply Z.ltb_ge in E. }
  rewrite linspace_unfold in Hl by exact Hnum. injection Hl as <-.
  cbv zeta. split; [exact Hnum|].
  set (y := map _ (seq 0 (Z.to_nat num))).
  assert (Hy : length y = Z.to_nat num)
    by (unfold y; now rewrite length_map, length_seq).
  destruct (1 <? num) eqn:Hmany.
  - apply Z.ltb_lt in Hmany.
    assert (Hy' : y <> []) by (intros E; rewrite E in Hy; cbn in Hy; lia).
    assert (Hr : length (removelast y) = Z.to_nat (num - 1)).
    { pose proof (app_removelast_last 0%float Hy') as E.
      apply (f_equal (@length float)) in E.
      rewrite length_app in E. cbn [length] in E. lia. }
    split; [rewrite length_app; cbn [length]; lia|].
    split.
    + intros _. rewrite nth_error_app2 by lia.
      rewrite Hr, Nat.sub_diag. reflexivity.
    + intros i Hi. rewrite nth_error_app1 by lia.
      rewrite nth_error_removelast by lia.
      unfold y. rewrite nth_error_map.
      rewrite nth_error_nth' with (d := 0%nat) by (rewrite length_seq; lia).
      rewrite seq_nth by lia. cbn [option_map Nat.add].
      rewrite Z2Nat.id by lia. unfold linspace_raw, linspace_inner.
      replace (0 <? num - 1) with true by (symmetry; apply Z.ltb_lt; lia).
      reflexivity.
  - apply Z.ltb_ge in Hmany. split; [lia|]. split; intros; lia.
Qed.

(** The first and the last of the bonds in maturity order mature at the
    earliest and at the latest maturity. *)
Lemma sorted_maturities {num : Type} (b : FixedRateACGB num)
  (bs : list (FixedRateACGB num)) :
  exists (first last : FixedRateACGB num),
    py_index (sorted maturity (b :: bs)) 0 = Ok first
    /\ py_index (sorted maturity (b :: bs)) (-1) = Ok last
    /\ is_earliest (maturity first) (map maturity (b :: bs))
    /\ is_latest (maturity last) (map maturity (b :: bs)).
Proof.
  pose proof (sorted_sorted (@maturity num) (b :: bs)) as Hs.
  pose proof (sorted_In (@maturity num)) as Hin.
  destruct (sorted maturity (b :: bs)) as [|x l] eqn:E.
  { specialize (Hin b (b :: bs)). rewrite E in Hin. cbn [In] in Hin.
    exfalso. apply Hin. now left. }
  exists x, (last (x :: l) x).
  split; [apply py_index_first|]. split; [apply py_index_last|].
  assert (Hmem : forall d, In d (map maturity (b :: bs)) ->
                           exists z, In z (x :: l) /\ maturity z = d).
  { intros d Hd. apply in_map_iff in Hd as (z & <- & Hz).
    exists z. split; [|reflexivity].
    specialize (Hin z (b :: bs)). rewrite E in Hin. now apply Hin. }
  assert (Hback : forall z, In z (x :: l) -> In (maturity z) (map maturity (b :: bs))).
  { intros z Hz. apply in_map. specialize (Hin z (b :: bs)).
    rewrite E in Hin. now apply Hin. }
  split; split.
  - apply Hback. now left.
  - intros d Hd. destruct (Hmem d Hd) as (z & Hz & <-).
    apply StronglySorted_inv in Hs as [_ Hx].
    destruct Hz as [<- | Hz]; [apply leb_refl|].
    exact (proj1 (Forall_forall _ _) Hx z Hz).
  - apply Hback. apply last_cons_In.
  - intros d Hd. destruct (Hmem d Hd) as (z & Hz & <-).
    exact (proj1 (Forall_forall _ _) (strongly_sorted_last maturity l x x Hs) z Hz).
Qed.

(** Lines 66 to 79 on a non-empty list, with the two ends of the sorted
    list read as the earliest and the latest maturity. *)
Lemma fit_knot_locations_bounds (b : FixedRateACGB float)
  (bs : list (FixedRateACGB float)) (options : DiscountFitOptions)
  (today : date) :
  exists earliest latest,
    is_earliest earliest (map maturity (b :: bs))
    /\ is_latest latest (map maturity (b :: bs))
    /\ fit_knot_locations (b :: bs) options today
       = (ext <- timedelta_days (extenion_days options) ;;
          lower <- sub_days earliest ext ;;
          curve_end <- add_days latest ext ;;
          let curve_start :=
            if PyDate.ltb lower today then today else lower in
          knots <- linspace
                     (_date_to_year_fraction_act_365 today curve_start)
                     (_date_to_year_fraction_act_365 today curve_end)
                     (knot_count options) ;;
          Ok (sorted maturity (b :: bs), knots)).
Proof.
  destruct (sorted_maturities b bs) as (first & last & Hfirst & Hlast & He & Hl).
  exists (maturity first), (maturity last).
  split; [exact He|]. split; [exact Hl|].
  unfold fit_knot_locations. cbv zeta. rewrite Hfirst, Hlast. cbn [bind].
  destruct (timedelta_days (extenion_days options)) as [ext| |];
    cbn [bind]; reflexivity.
Qed.

Lemma timedelta_days_cases (n : Z) :
  timedelta_days n = Ok n \/ timedelta_days n = Raise OverflowError.
Proof. unfold timedelta_days. destruct (_ && _); auto. Qed.

Lemma add_days_cases (d : date) (n : Z) :
  (exists d', add_days d n = Ok d') \/ add_days d n = Raise OverflowError.
Proof. unfold add_days. cbv zeta. destruct (_ && _); eauto. Qed.

Lemma linspace_cases (start stop : float) (num : Z) :
  (exists l, linspace start stop num = Ok l)
  \/ linspace start stop num = Raise ValueError.
Proof. unfold linspace. destruct (num <? 0); eauto. Qed.

(** ** C5 *)



(** ** C2 *)

(** C2 (amended).  On an empty bond list [fit_discount_curve] raises
    [IndexError], from [sorted_bonds[0]], whatever the options, the date
    and the solver: the function has no check of its own for an empty
    input.  The empty list is the only one on which the knot computation
    raises it. *)
Theorem fit_discount_curve_empty
  (CubicSpline : list float -> list float -> result (float -> float))
  (least_squares : (list float -> result (list float)) -> list float
                   -> result (list float))
  (options : DiscountFitOptions) (today : date) :
  fit_discount_curve CubicSpline least_squares [] options today
  = Raise IndexError
  /\ forall bonds,
       fit_knot_locations bonds options today = Raise IndexError <->
       bonds = [].
Proof.
  split; [reflexivity|].
  intros [|b bs]; split; try reflexivity; try discriminate.
  intros Hrun. exfalso.
  destruct (fit_knot_locations_bounds b bs options today)
    as (earliest & latest & _ & _ & Heq).
  rewrite Heq in Hrun. clear Heq.
  destruct (timedelta_days_cases (extenion_days options)) as [Hext | Hext];
    rewrite Hext in Hrun; cbn [bind] in Hrun; [|discriminate].
  unfold sub_days in Hrun.
  destruct (add_days_cases earliest (- extenion_days options))
    as [[lower Hlower] | Hlower];
    rewrite Hlower in Hrun; cbn [bind] in Hrun; [|discriminate].
  destruct (add_days_cases latest (extenion_days options))
    as [[curve_end Hend] | Hend];
    rewrite Hend in Hrun; cbn [bind] in Hrun; [|discriminate].
  cbv zeta in Hrun.
  destruct (linspace_cases
              (_date_to_year_fraction_act_365 today
                 (if PyDate.ltb lower today then today else lower))
              (_date_to_year_fraction_act_365 today curve_end)
              (knot_count options)) as [[knots Hknots] | Hknots];
    rewrite Hknots in Hrun; discriminate Hrun.
Qed.

(** C2 as stated fails: the exception of the empty bond list is the
    indexing fault itself. *)
Lemma fit_discount_curve_empty_counterexample :
  ~ (forall CubicSpline least_squares options today,
        exists e,
          fit_discount_curve CubicSpline least_squares [] options today
          = Raise e
          /\ e <> IndexError).
Proof.
  intros Hclaim.
  destruct (Hclaim (fun _ _ => Raise ValueError) (fun _ x0 => Ok x0)
                   DiscountFitOptions_init (mkdate 2020 7 23))
    as (e & Hrun & Hne).
  cbv in Hrun. congruence.
Qed.

(** * Facts about float comparisons *)

Section FloatOrder.

Local Open Scope float_scope.

Lemma Prim2SF_zero : Prim2SF 0 = S754_zero false.
Proof. reflexivity. Qed.

Lemma float_pos_not_zero (x : float) : (0 <? x) = true -> (x =? 0) = false.
Proof.
  rewrite FloatAxioms.ltb_spec, FloatAxioms.eqb_spec, Prim2SF_zero.
  destruct (Prim2SF x) as [[|]|[|]| |[|] m e]; cbn; congruence.
Qed.

Lemma float_pos_not_neg (x : float) : (0 <? x) = true -> (x <? 0) = false.
Proof.
  rewrite !FloatAxioms.ltb_spec, Prim2SF_zero.
  destruct (Prim2SF x) as [[|]|[|]| |[|] m e]; cbn; congruence.
Qed.

Lemma float_neg_not_zero (x : float) : (x <? 0) = true -> (x =? 0) = false.
Proof.
  rewrite FloatAxioms.ltb_spec, FloatAxioms.eqb_spec, Prim2SF_zero.
  destruct (Prim2SF x) as [[|]|[|]| |[|] m e]; cbn; congruence.
Qed.

Lemma float_lt_not_nan_l (x y : float) : (x <? y) = true -> is_nan x = false.
Proof.
  unfold is_nan. rewrite FloatAxioms.ltb_spec, FloatAxioms.eqb_spec.
  unfold SFltb, SFeqb.
  destruct (Prim2SF x) as [[|]|[|]| |[|] m e]; cbn;
    try reflexivity; try discriminate;
    intros _; now rewrite Z.compare_refl, Pos.compare_cont_refl.
Qed.

Lemma float_lt_not_nan_r (x y : float) : (x <? y) = true -> is_nan y = false.
Proof.
  unfold is_nan. rewrite FloatAxioms.ltb_spec, FloatAxioms.eqb_spec.
  unfold SFltb, SFeqb.
  destruct (Prim2SF x) as [[|]|[|]| |[|] mx ex],
           (Prim2SF y) as [[|]|[|]| |[|] m e]; cbn;
    try reflexivity; try discriminate;
    intros _; now rewrite Z.compare_refl, Pos.compare_cont_refl.
Qed.

Lemma float_eq_zero (x : float) : (x =? 0) = true -> x = 0 \/ x = (-0).
Proof.
  rewrite FloatAxioms.eqb_spec, Prim2SF_zero. intros Hx.
  assert (Hs : exists s, Prim2SF x = S754_zero s).
  { destruct (Prim2SF x) as [s|[|]| |[|] m e]; try discriminate Hx.
    now exists s. }
  destruct Hs as [s Hs]. rewrite <- (SF2Prim_Prim2SF x), Hs.
  destruct s; [right | left]; reflexivity.
Qed.

End FloatOrder.

(** * The yield of a discount factor *)

Section Yield.

Local Open Scope float_scope.

Variable libm_pow : float -> float -> float * Z.
Variable complex_pow : float -> float -> result (float * float).

Local Abbreviation float_pow := (PyFloat.float_pow libm_pow complex_pow).

(** A positive base has a real power, unless the C library reports an
    error. *)
Lemma float_pow_positive (iv iw : float) :
  (0 <? iv) = true ->
  (exists p, float_pow iv iw = Ok (PyFloat.PyFloat p))
  \/ float_pow iv iw = Raise OverflowError
  \/ float_pow iv iw = Raise ValueError.
Proof.
  intros Hpos. unfold PyFloat.float_pow.
  rewrite (float_pos_not_zero _ Hpos), (float_pos_not_neg _ Hpos).
  cbn [andb].
  repeat match goal with
         | |- context [if ?c then _ else _] => destruct c
         | |- context [let '(_, _) := ?p in _] => destruct p
         end; eauto.
Qed.

(** Zero to a negative finite power is the one division by zero of
    [pow]; zero to a positive power is zero. *)
Lemma float_pow_zero_negative (iv iw : float) :
  (iv =? 0) = true -> (iw <? 0) = true -> is_infinity iw = false ->
  float_pow iv iw = Raise ZeroDivisionError.
Proof.
  intros Hzero Hneg Hfin. unfold PyFloat.float_pow.
  rewrite (float_neg_not_zero _ Hneg), (float_lt_not_nan_l _ _ Hneg), Hfin,
    Hzero, Hneg.
  destruct (float_eq_zero _ Hzero) as [-> | ->]; reflexivity.
Qed.

Lemma float_pow_zero_positive (iv iw : float) :
  (iv =? 0) = true -> (0 <? iw) = true ->
  exists p, float_pow iv iw = Ok (PyFloat.PyFloat p) /\ (p - 1 = -1)%float.
Proof.
  intros Hzero Hpos. unfold PyFloat.float_pow.
  rewrite (float_pos_not_zero _ Hpos), (float_lt_not_nan_r _ _ Hpos), Hpos,
    (float_pos_not_neg _ Hpos).
  destruct (float_eq_zero _ Hzero) as [-> | ->];
    destruct (is_infinity iw), (PyFloat.is_odd_integer iw);
    eexists; split; reflexivity.
Qed.

(** ** C6 *)


End Yield.



(* ================================================================== *)
(** * Further properties *)

(** ** The business-day roll *)

(** X1.  [_business_date] returns on every date, the last one included: the
    result is a weekday, at most two days later, and the date itself
    when that is a weekday. *)
Theorem business_date_weekday (d : date) :
  valid_date d ->
  exists d',
    _business_date d = Ok d'
    /\ valid_date d'
    /\ 0 <= weekday d' <= 4
    /\ toordinal d <= toordinal d' <= toordinal d + 2
    /\ (weekday d <= 4 -> d' = d).
Proof.
  intros Hd. exists (next_business_day d).
  destruct (next_business_day_spec d Hd) as (Hv & Ho & Hw).
  pose proof (business_shift_weekday _ (weekday_range d)) as (Hs & _ & _).
  pose proof (weekday_range (next_business_day d)).
  split; [now apply business_date_spec|].
  repeat split; try assumption; try lia.
  intros Hweek. unfold next_business_day.
  now replace (4 <? weekday d) with false by (symmetry; apply Z.ltb_ge; lia).
Qed.

Lemma business_date_weekday_witness :
  valid_date (mkdate 2020 11 21)
  /\ _business_date (mkdate 2020 11 21) = Ok (mkdate 2020 11 23).
Proof.
  split; [reflexivity|].
  destruct (business_date_weekday (mkdate 2020 11 21) eq_refl)
    as (d' & Hrun & _).
  rewrite Hrun. vm_compute in Hrun. injection Hrun as <-. reflexivity.
Defined.

(** X2.  Rolling twice is rolling once. *)
Theorem business_date_idempotent (d d' : date) :
  valid_date d -> _business_date d = Ok d' -> _business_date d' = Ok d'.
Proof.
  intros Hd Hrun.
  rewrite business_date_spec in Hrun by exact Hd. injection Hrun as <-.
  destruct (next_business_day_spec d Hd) as (Hv & _ & Hw).
  rewrite business_date_spec by exact Hv. f_equal.
  unfold next_business_day at 1.
  now replace (4 <? weekday (next_business_day d)) with false
    by (symmetry; apply Z.ltb_ge; lia).
Qed.

Lemma business_date_idempotent_witness :
  valid_date (mkdate 2020 11 21)
  /\ _business_date (mkdate 2020 11 21) = Ok (mkdate 2020 11 23)
  /\ _business_date (mkdate 2020 11 23) = Ok (mkdate 2020 11 23).
Proof.
  split; [reflexivity|]. split; [reflexivity|].
  apply (business_date_idempotent (mkdate 2020 11 21) (mkdate 2020 11 23));
    reflexivity.
Defined.

(** X3.  The roll keeps the order of dates. *)
Theorem business_date_monotone (d1 d2 r1 r2 : date) :
  valid_date d1 -> valid_date d2 ->
  PyDate.leb d1 d2 = true ->
  _business_date d1 = Ok r1 -> _business_date d2 = Ok r2 ->
  PyDate.leb r1 r2 = true.
Proof.
  intros H1 H2 Hle Hr1 Hr2.
  rewrite business_date_spec in Hr1, Hr2 by assumption.
  injection Hr1 as <-. injection Hr2 as <-.
  destruct (next_business_day_spec d1 H1) as (Hv1 & Ho1 & Hw1).
  destruct (next_business_day_spec d2 H2) as (Hv2 & Ho2 & Hw2).
  rewrite leb_toordinal in * by assumption.
  apply Z.leb_le in Hle. apply Z.leb_le. rewrite Ho1, Ho2.
  unfold business_shift, weekday in *.
  repeat match goal with
         | |- context [?a =? ?b] =>
             destruct (Z.eqb_spec a b)
         end; divlia.
Qed.

Lemma business_date_monotone_witness :
  valid_date (mkdate 2020 11 21) /\ valid_date (mkdate 2020 11 22)
  /\ PyDate.leb (mkdate 2020 11 23) (mkdate 2020 11 23) = true.
Proof.
  split; [reflexivity|]. split; [reflexivity|].
  apply (business_date_monotone (mkdate 2020 11 21) (mkdate 2020 11 22));
    reflexivity.
Defined.

(** ** The outcome of the coupon series *)

Lemma is_feb29_false (d : date) : is_feb29 d = false -> not_feb29 d.
Proof.
  unfold is_feb29, not_feb29. rewrite andb_false_iff, !Z.eqb_neq. tauto.
Qed.

Section SeriesOutcome.

Context {num : Type} `{PyNumber num}.

Lemma coupon_loop_advance (last : date) (amount : num) (first : date) :
  valid_date first -> not_feb29 first -> 10 <= toordinal first ->
  forall (j k : nat) (acc : list (Coupon num)) (fuel : nat),
    year first + Z.of_nat (k + j) <= MAXYEAR ->
    (forall i, (k <= i < k + j)%nat ->
               PyDate.leb (years_after first i) last = true) ->
    coupon_loop (j + fuel) last amount (years_after first k) acc
    = coupon_loop fuel last amount (years_after first (k + j))
        (acc ++ map (coupon_on amount) (map (years_after first) (seq k j))).
Proof.
  intros Hfirst Hfeb H10.
  induction j as [|j IH]; intros k acc fuel Hmax Htrue.
  - cbn [Nat.add seq map]. now rewrite Nat.add_0_r, app_nil_r.
  - cbn [Nat.add]. rewrite coupon_loop_unfold, Htrue by lia.
    assert (Hk : valid_date (years_after first k))
      by (apply years_after_valid; try assumption; lia).
    assert (Hk10 : 10 <= toordinal (years_after first k))
      by (pose proof (years_after_toordinal first k Hfirst Hk); lia).
    rewrite (coupon_body amount _ Hk Hk10). cbn [bind].
    assert (Hnext : valid_date (years_after first (S k)))
      by (apply years_after_valid; try assumption; lia).
    replace (new_date (year (years_after first k) + 1)
                      (month (years_after first k))
                      (day (years_after first k)))
      with (Ok (years_after first (S k))).
    2:{ symmetry. unfold years_after in *. cbn [year month day].
        replace (year first + Z.of_nat k + 1)
          with (year first + Z.of_nat (S k)) by lia.
        now apply new_date_valid. }
    cbn [bind]. rewrite IH.
    + replace (S k + j)%nat with (k + S j)%nat by lia.
      cbn [seq map]. now rewrite <- app_assoc.
    + replace (S k + j)%nat with (k + S j)%nat by lia. exact Hmax.
    + intros i Hi. apply Htrue. lia.
Qed.

(** One turn of the loop whose next date does not exist. *)
Lemma coupon_loop_no_next (fuel : nat) (last : date) (amount : num)
  (d : date) (acc : list (Coupon num)) :
  valid_date d -> 10 <= toordinal d -> PyDate.leb d last = true ->
  ~ valid_date (mkdate (year d + 1) (month d) (day d)) ->
  coupon_loop (S fuel) last amount d acc = Raise ValueError.
Proof.
  intros Hd H10 Hle Hnext. rewrite coupon_loop_unfold, Hle.
  rewrite (coupon_body amount d Hd H10). cbn [bind].
  now rewrite new_date_invalid.
Qed.

Lemma feb29_no_next (d : date) :
  valid_date d -> is_feb29 d = true ->
  10 <= toordinal d /\ ~ valid_date (mkdate (year d + 1) (month d) (day d)).
Proof.
  intros Hd Hfeb. unfold is_feb29 in Hfeb.
  apply andb_true_iff in Hfeb as [Hm Hday]. apply Z.eqb_eq in Hm, Hday.
  pose proof Hd as Hv. apply valid_date_iff in Hv as (Hy & _ & Hdim).
  assert (Hleap : _is_leap (year d) = true).
  { unfold _days_in_month in Hdim. rewrite Hm, Hday in Hdim.
    destruct (_is_leap (year d)); [reflexivity|]. calc in *. lia. }
  split.
  - unfold toordinal, _ymd2ord, _days_before_month. rewrite Hm, Hday, Hleap.
    pose proof (days_before_year_mono 1 (year d) ltac:(lia)) as H1.
    change (_days_before_year 1) with 0 in H1. calc. lia.
  - rewrite valid_date_iff. cbn [year month day]. unfold _days_in_month.
    rewrite Hm, Hday, (leap_year_successor _ Hleap). calc. lia.
Qed.

(** The series and its case analysis agree on every valid first payment
    date. *)
Lemma series_outcome (first_pay_date last_pay_date : date)
  (rate principle : num) :
  valid_date first_pay_date ->
  construct_yearly_coupon_series first_pay_date last_pay_date rate principle
  = annual_coupons_outcome first_pay_date last_pay_date rate principle.
Proof.
  intros Hfirst. unfold annual_coupons_outcome.
  destruct (PyDate.leb first_pay_date last_pay_date) eqn:Hle; cbn [negb].
  2:{ now apply series_of_later_start. }
  destruct (coupon_loop_bound_pos first_pay_date Hfirst) as (fuel & Hbound & Hfuel).
  destruct (toordinal first_pay_date <? 10) eqn:Hnear.
  { apply Z.ltb_lt in Hnear.
    unfold construct_yearly_coupon_series. cbv zeta.
    rewrite Hbound, coupon_loop_unfold, Hle. unfold sub_days.
    rewrite add_days_out_of_range by lia. reflexivity. }
  apply Z.ltb_ge in Hnear.
  destruct (is_feb29 first_pay_date) eqn:Hfeb; cbn [orb].
  { destruct (feb29_no_next _ Hfirst Hfeb) as [H10 Hnext].
    unfold construct_yearly_coupon_series. cbv zeta. rewrite Hbound.
    now apply coupon_loop_no_next. }
  apply is_feb29_false in Hfeb.
  pose proof Hfirst as Hv. apply valid_date_iff in Hv as (Hy & _).
  unfold MAXYEAR in *.
  destruct (PyDate.leb (mkdate 9999 (month first_pay_date)
                               (day first_pay_date)) last_pay_date) eqn:Hstop.
  - set (j := Z.to_nat (9999 - year first_pay_date)).
    assert (Hlast : years_after first_pay_date j
                    = mkdate 9999 (month first_pay_date) (day first_pay_date)).
    { unfold years_after, j. f_equal. lia. }
    unfold construct_yearly_coupon_series. cbv zeta.
    replace (coupon_loop_bound first_pay_date) with (j + 1)%nat
      by (unfold j; lia).
    pose proof (coupon_loop_advance last_pay_date
                  (num_mul principle rate) first_pay_date Hfirst Hfeb
                  Hnear j 0 [] 1) as Hadv.
    rewrite years_after_0 in Hadv. rewrite Hadv.
    + cbn [Nat.add].
      assert (Hvj : valid_date (years_after first_pay_date j))
        by (apply years_after_valid; try assumption; unfold MAXYEAR, j; lia).
      apply coupon_loop_no_next.
      * exact Hvj.
      * pose proof (years_after_toordinal _ j Hfirst Hvj). lia.
      * now rewrite Hlast.
      * rewrite Hlast. cbn [year month day]. rewrite valid_date_iff.
        cbn [year]. lia.
    + unfold MAXYEAR, j. lia.
    + intros i Hi. apply (leb_years_after_le _ _ i j); [lia|].
      now rewrite Hlast.
  - unfold annual_coupons.
    destruct (stepped_dates_prefix first_pay_date last_pay_date)
      as (p & -> & Htrue & Hfalse).
    apply series_of_steps; try assumption.
    destruct (Z_le_gt_dec (year first_pay_date + Z.of_nat p) MAXYEAR)
      as [Hok | Hover]; [exact Hok|].
    exfalso. unfold MAXYEAR in *.
    specialize (Htrue (Z.to_nat (9999 - year first_pay_date)) ltac:(lia)).
    unfold years_after in Htrue.
    replace (year first_pay_date
             + Z.of_nat (Z.to_nat (9999 - year first_pay_date)))
      with 9999 in Htrue by lia.
    congruence.
Qed.

(** X4.  Every outcome of [construct_yearly_coupon_series].  A first payment
    date after the last gives the empty list.  Otherwise the call raises
    [OverflowError] when the first payment date is before 0001-01-10
    (its ex-date would precede [date.min]), raises [ValueError] when it
    is a February 29 or when the stepping reaches the year [MAXYEAR],
    and in every other case returns the coupons of the stepped dates.
    So the call returns a list exactly when the first payment date is
    after the last or is, from 0001-01-10 on and not a February 29, a
    day whose anniversary in [MAXYEAR] is after the last. *)
Theorem construct_yearly_coupon_series_outcome
  (first_pay_date last_pay_date : date) (rate principle : num) :
  valid_date first_pay_date ->
  construct_yearly_coupon_series first_pay_date last_pay_date rate principle
  = annual_coupons_outcome first_pay_date last_pay_date rate principle
  /\ ((exists l,
          construct_yearly_coupon_series first_pay_date last_pay_date rate
            principle = Ok l)
      <-> PyDate.leb first_pay_date last_pay_date = false
          \/ (10 <= toordinal first_pay_date
              /\ is_feb29 first_pay_date = false
              /\ PyDate.leb (mkdate MAXYEAR (month first_pay_date)
                                    (day first_pay_date)) last_pay_date
                 = false)).
Proof.
  intros Hfirst. split; [now apply series_outcome|].
  rewrite series_outcome by exact Hfirst. unfold annual_coupons_outcome.
  destruct (PyDate.leb first_pay_date last_pay_date); cbn [negb].
  2:{ split; [now left | eauto]. }
  destruct (Z.ltb_spec (toordinal first_pay_date) 10) as [Hnear | Hfar].
  { split; [intros [l Hl]; discriminate Hl|].
    intros [Hle | (H10 & _)]; [discriminate Hle | lia]. }
  destruct (is_feb29 first_pay_date); cbn [orb].
  { split; [intros [l Hl]; discriminate Hl|].
    intros [Hle | (_ & Hfeb & _)]; discriminate. }
  destruct (PyDate.leb (mkdate MAXYEAR (month first_pay_date)
                               (day first_pay_date)) last_pay_date).
  - split; [intros [l Hl]; discriminate Hl|].
    intros [Hle | (_ & _ & Hstop)]; discriminate.
  - split; [intros _; right; repeat split; assumption | eauto].
Qed.

End SeriesOutcome.

Lemma construct_yearly_coupon_series_outcome_witness :
  valid_date (mkdate 1 1 5)
  /\ construct_yearly_coupon_series (mkdate 1 1 5) (mkdate 2 1 5)
       (float_lit 1 100) 100%float
     = Raise OverflowError.
Proof.
  split; [reflexivity|].
  rewrite (proj1 (construct_yearly_coupon_series_outcome (mkdate 1 1 5)
                    (mkdate 2 1 5) (float_lit 1 100) 100%float eq_refl)).
  reflexivity.
Defined.

(** ** The coupons that a series returns *)

Lemma years_after_step (d : date) (k : nat) :
  valid_date (years_after d k) -> valid_date (years_after d (S k)) ->
  not_feb29 d ->
  365 <= toordinal (years_after d (S k)) - toordinal (years_after d k) <= 366.
Proof.
  rewrite !valid_date_iff. unfold not_feb29, years_after, toordinal, _ymd2ord.
  cbn [year month day]. intros (Hy & Hm & Hd) (Hy' & _ & Hd') Hfeb.
  replace (year d + Z.of_nat (S k)) with (year d + Z.of_nat k + 1) in * by lia.
  rewrite days_before_year_succ. unfold _days_before_month.
  destruct (2 <? month d) eqn:E2; cbn [andb];
    destruct (_is_leap (year d + Z.of_nat k)) eqn:L1;
    destruct (_is_leap (year d + Z.of_nat k + 1)) eqn:L2;
    lia.
Qed.

Lemma years_after_gap (d : date) (i j : nat) :
  valid_date d -> not_feb29 d -> year d + Z.of_nat j <= MAXYEAR ->
  (i < j)%nat ->
  toordinal (years_after d i) + 365 <= toordinal (years_after d j).
Proof.
  intros Hd Hfeb Hmax Hij. induction j as [|j IH]; [lia|].
  assert (Hvj : valid_date (years_after d j))
    by (apply years_after_valid; try assumption; lia).
  assert (HvS : valid_date (years_after d (S j)))
    by (apply years_after_valid; assumption).
  pose proof (years_after_step d j Hvj HvS Hfeb) as Hstep.
  destruct (Nat.eq_dec i j) as [->|Hne]; [lia|].
  specialize (IH ltac:(lia) ltac:(lia)). lia.
Qed.

Lemma strongly_sorted_seq {A : Type} (R : A -> A -> Prop) (g : nat -> A)
  (p k : nat) :
  (forall i j, (k <= i)%nat -> (i < j)%nat -> (j < k + p)%nat ->
               R (g i) (g j)) ->
  StronglySorted R (map g (seq k p)).
Proof.
  revert k. induction p as [|p IH]; intros k HR; [constructor|].
  cbn [seq map]. constructor.
  - apply IH. intros i j Hi Hij Hj. apply HR; lia.
  - apply Forall_forall. intros x Hx.
    apply in_map_iff in Hx as (j & <- & Hj). apply in_seq in Hj.
    apply HR; lia.
Qed.

Section Returned.

Context {num : Type} `{PyNumber num}.

(** What is known when the series returns. *)
Lemma series_returns (first last : date) (rate principle : num)
  (l : list (Coupon num)) :
  valid_date first ->
  construct_yearly_coupon_series first last rate principle = Ok l ->
  exists p,
    l = map (coupon_on (num_mul principle rate))
            (map (years_after first) (seq 0 p))
    /\ (forall i, (i < p)%nat ->
          PyDate.leb (years_after first i) last = true
          /\ valid_date (years_after first i)
          /\ 10 <= toordinal (years_after first i)
          /\ year first + Z.of_nat i < MAXYEAR)
    /\ PyDate.leb (years_after first p) last = false
    /\ (p = 0%nat \/ not_feb29 first).
Proof.
  intros Hfirst Hrun.
  rewrite series_outcome in Hrun by exact Hfirst.
  unfold annual_coupons_outcome, annual_coupons in Hrun.
  destruct (stepped_dates_prefix first last) as (p & Hsteps & Htrue & Hfalse).
  rewrite Hsteps in Hrun.
  destruct (PyDate.leb first last) eqn:Hle; cbn [negb] in Hrun.
  2:{ injection Hrun as <-. exists 0%nat.
      split; [reflexivity|]. split; [intros; lia|].
      split; [now rewrite years_after_0 | now left]. }
  destruct (toordinal first <? 10) eqn:Hnear; [discriminate|].
  apply Z.ltb_ge in Hnear.
  destruct (is_feb29 first) eqn:Hfeb; cbn [orb] in Hrun; [discriminate|].
  apply is_feb29_false in Hfeb.
  destruct (PyDate.leb (mkdate MAXYEAR (month first) (day first)) last)
    eqn:Hstop; [discriminate|].
  injection Hrun as <-. exists p.
  split; [reflexivity|]. split; [|split; [exact Hfalse | now right]].
  intros i Hi.
  assert (Hyear : year first + Z.of_nat i < MAXYEAR).
  { pose proof Hfirst as Hv. apply valid_date_iff in Hv as (Hy & _).
    unfold MAXYEAR in *.
    destruct (Z_lt_ge_dec (year first + Z.of_nat i) 9999) as [|Hge];
      [assumption|].
    exfalso.
    pose proof (leb_years_after_le first last
                  (Z.to_nat (9999 - year first)) i ltac:(lia)
                  (Htrue i Hi)) as Hcontra.
    unfold years_after in Hcontra.
    replace (year first + Z.of_nat (Z.to_nat (9999 - year first)))
      with 9999 in Hcontra by lia.
    congruence. }
  assert (Hvi : valid_date (years_after first i))
    by (apply years_after_valid; try assumption; lia).
  pose proof (years_after_toordinal first i Hfirst Hvi).
  repeat split; try assumption; try lia. now apply Htrue.
Qed.

Lemma series_returns_Forall (P : Coupon num -> Prop) (first last : date)
  (rate principle : num) (l : list (Coupon num)) :
  (forall d, valid_date d -> 10 <= toordinal d ->
             P (coupon_on (num_mul principle rate) d)) ->
  valid_date first ->
  construct_yearly_coupon_series first last rate principle = Ok l ->
  Forall P l.
Proof.
  intros HP Hfirst Hrun.
  destruct (series_returns first last rate principle l Hfirst Hrun)
    as (p & -> & Hsteps & _).
  apply Forall_forall. intros c Hc.
  apply in_map_iff in Hc as (d & <- & Hd).
  apply in_map_iff in Hd as (i & <- & Hi). apply in_seq in Hi.
  destruct (Hsteps i ltac:(lia)) as (_ & Hv & H10 & _).
  now apply HP.
Qed.

End Returned.

Lemma coupon_on_gap {num : Type} (amount : num) (d : date) :
  valid_date d -> 10 <= toordinal d ->
  7 <= days_between (ex_date (coupon_on amount d))
                    (payment_date (coupon_on amount d)) <= 11.
Proof.
  intros Hd H10. pose proof (toordinal_bounds d Hd) as Hb.
  assert (Hr : 1 <= toordinal d - 9 <= _MAXORDINAL) by lia.
  destruct (fromordinal_spec _ Hr) as [Hv Ho].
  destruct (next_business_day_spec _ Hv) as (_ & Ho1 & _).
  destruct (next_business_day_spec _ Hd) as (_ & Ho2 & _).
  unfold days_between, coupon_on, Coupon_init, days_before.
  cbn [ex_date payment_date]. rewrite Ho1, Ho2, Ho.
  unfold business_shift, weekday. rewrite Ho.
  repeat match goal with
         | |- context [?a =? ?b] => destruct (Z.eqb_spec a b)
         end; divlia.
Qed.

(** X5.  Every coupon that [construct_yearly_coupon_series] returns pays
    [principle * rate], and is paid and goes ex on a weekday. *)
Theorem series_coupons_weekday {num : Type} `{PyNumber num}
  (first_pay_date last_pay_date : date) (rate principle : num)
  (coupons : list (Coupon num)) :
  valid_date first_pay_date ->
  construct_yearly_coupon_series first_pay_date last_pay_date rate principle
  = Ok coupons ->
  Forall (fun c => coupon_amount c = num_mul principle rate
                   /\ 0 <= weekday (payment_date c) <= 4
                   /\ 0 <= weekday (ex_date c) <= 4) coupons.
Proof.
  apply series_returns_Forall. intros d Hd H10.
  split; [reflexivity|]. now apply coupon_on_weekdays.
Qed.

Lemma series_coupons_weekday_witness :
  valid_date (mkdate 2020 11 21)
  /\ exists coupons,
      construct_yearly_coupon_series (mkdate 2020 11 21) (mkdate 2030 11 21)
        (float_lit 1 100) 100%float = Ok coupons
      /\ Forall (fun c => coupon_amount c = 1%float
                          /\ 0 <= weekday (payment_date c) <= 4
                          /\ 0 <= weekday (ex_date c) <= 4) coupons.
Proof.
  split; [reflexivity|].
  destruct (construct_yearly_coupon_series (mkdate 2020 11 21)
              (mkdate 2030 11 21) (float_lit 1 100) 100%float)
    as [coupons| |] eqn:E; [|vm_compute in E; discriminate E..].
  exists coupons. split; [reflexivity|].
  exact (series_coupons_weekday (mkdate 2020 11 21) (mkdate 2030 11 21)
           (float_lit 1 100) 100%float coupons eq_refl E).
Defined.

(** X6.  The payment date of a returned coupon is seven to eleven days after
    its ex-date. *)
Theorem series_coupons_gap {num : Type} `{PyNumber num}
  (first_pay_date last_pay_date : date) (rate principle : num)
  (coupons : list (Coupon num)) :
  valid_date first_pay_date ->
  construct_yearly_coupon_series first_pay_date last_pay_date rate principle
  = Ok coupons ->
  Forall (fun c => 7 <= days_between (ex_date c) (payment_date c) <= 11)
         coupons.
Proof.
  apply series_returns_Forall. intros d Hd H10. now apply coupon_on_gap.
Qed.

Lemma series_coupons_gap_witness :
  valid_date (mkdate 2020 11 21)
  /\ exists coupons,
      construct_yearly_coupon_series (mkdate 2020 11 21) (mkdate 2030 11 21)
        (float_lit 1 100) 100%float = Ok coupons
      /\ Forall (fun c => 7 <= days_between (ex_date c) (payment_date c) <= 11)
                coupons.
Proof.
  split; [reflexivity|].
  destruct (construct_yearly_coupon_series (mkdate 2020 11 21)
              (mkdate 2030 11 21) (float_lit 1 100) 100%float)
    as [coupons| |] eqn:E; [|vm_compute in E; discriminate E..].
  exists coupons. split; [reflexivity|].
  exact (series_coupons_gap (mkdate 2020 11 21) (mkdate 2030 11 21)
           (float_lit 1 100) 100%float coupons eq_refl E).
Defined.

(** X7.  The returned coupons do not overlap: each is paid before the next
    goes ex, so ex-dates and payment dates alike run in strictly
    increasing order along the list. *)
Theorem series_coupons_chronological {num : Type} `{PyNumber num}
  (first_pay_date last_pay_date : date) (rate principle : num)
  (coupons : list (Coupon num)) :
  valid_date first_pay_date ->
  construct_yearly_coupon_series first_pay_date last_pay_date rate principle
  = Ok coupons ->
  StronglySorted
    (fun c1 c2 => PyDate.ltb (payment_date c1) (ex_date c2) = true) coupons.
Proof.
  intros Hfirst Hrun.
  destruct (series_returns _ _ _ _ _ Hfirst Hrun)
    as (p & -> & Hsteps & _ & Hfeb).
  rewrite map_map. apply strongly_sorted_seq. intros i j _ Hij Hj.
  destruct Hfeb as [-> | Hfeb]; [lia|].
  destruct (Hsteps i ltac:(lia)) as (_ & Hvi & Hi10 & _).
  destruct (Hsteps j ltac:(lia)) as (_ & Hvj & Hj10 & Hyj).
  pose proof (years_after_gap first_pay_date i j Hfirst Hfeb ltac:(lia) Hij)
    as Hgap.
  pose proof (toordinal_bounds _ Hvj) as Hbj.
  assert (Hr : 1 <= toordinal (years_after first_pay_date j) - 9
               <= _MAXORDINAL) by lia.
  destruct (fromordinal_spec _ Hr) as [Hv9 Ho9].
  destruct (next_business_day_spec _ Hvi) as (Hv1 & Ho1 & _).
  destruct (next_business_day_spec _ Hv9) as (Hv2 & Ho2 & _).
  pose proof (business_shift_weekday _
                (weekday_range (years_after first_pay_date i))).
  pose proof (business_shift_weekday _
                (weekday_range
                   (fromordinal (toordinal (years_after first_pay_date j) - 9)))).
  unfold coupon_on, Coupon_init, days_before. cbn [ex_date payment_date].
  rewrite ltb_toordinal by assumption. apply Z.ltb_lt. lia.
Qed.

Lemma series_coupons_chronological_witness :
  valid_date (mkdate 2020 11 21)
  /\ exists coupons,
      construct_yearly_coupon_series (mkdate 2020 11 21) (mkdate 2030 11 21)
        (float_lit 1 100) 100%float = Ok coupons
      /\ StronglySorted
           (fun c1 c2 => PyDate.ltb (payment_date c1) (ex_date c2) = true)
           coupons.
Proof.
  split; [reflexivity|].
  destruct (construct_yearly_coupon_series (mkdate 2020 11 21)
              (mkdate 2030 11 21) (float_lit 1 100) 100%float)
    as [coupons| |] eqn:E; [|vm_compute in E; discriminate E..].
  exists coupons. split; [reflexivity|].
  exact (series_coupons_chronological (mkdate 2020 11 21) (mkdate 2030 11 21)
           (float_lit 1 100) 100%float coupons eq_refl E).
Defined.

(** X8.  The number of coupons of a series that returns, for a first payment
    date not after the last: one for every year from the first to the one
    before the last, and one more when the anniversary in the last year
    is not after the last payment date. *)
Theorem series_length {num : Type} `{PyNumber num}
  (first_pay_date last_pay_date : date) (rate principle : num)
  (coupons : list (Coupon num)) :
  valid_date first_pay_date ->
  PyDate.leb first_pay_date last_pay_date = true ->
  construct_yearly_coupon_series first_pay_date last_pay_date rate principle
  = Ok coupons ->
  Z.of_nat (length coupons)
  = year last_pay_date - year first_pay_date
    + (if PyDate.leb (mkdate (year last_pay_date) (month first_pay_date)
                             (day first_pay_date)) last_pay_date
       then 1 else 0).
Proof.
  intros Hfirst Hle Hrun.
  destruct (series_returns _ _ _ _ _ Hfirst Hrun)
    as (p & -> & Hsteps & Hfalse & _).
  rewrite !length_map, length_seq.
  assert (Hyears : year first_pay_date <= year last_pay_date).
  { apply leb_iff in Hle. lia. }
  set (n := Z.to_nat (year last_pay_date - year first_pay_date)).
  assert (Hn : years_after first_pay_date n
               = mkdate (year last_pay_date) (month first_pay_date)
                        (day first_pay_date)).
  { unfold years_after, n. f_equal. lia. }
  rewrite <- Hn.
  assert (Hbelow : forall i, (i < n)%nat ->
            PyDate.leb (years_after first_pay_date i) last_pay_date = true).
  { intros i Hi. apply leb_iff. unfold years_after, n in *.
    cbn [year month day]. lia. }
  assert (Habove : PyDate.leb (years_after first_pay_date (S n)) last_pay_date
                   = false).
  { apply leb_years_after_beyond. unfold n. lia. }
  assert (Hp : (n <= p <= S n)%nat).
  { split.
    - destruct (Nat.le_gt_cases n p) as [|Hlt]; [assumption|].
      rewrite (Hbelow p Hlt) in Hfalse. discriminate.
    - destruct (Nat.le_gt_cases p (S n)) as [|Hlt]; [assumption|].
      destruct (Hsteps (S n) Hlt) as (Htrue & _). congruence. }
  destruct (PyDate.leb (years_after first_pay_date n) last_pay_date) eqn:Hlast.
  - assert (p = S n) as ->; [|unfold n; lia].
    destruct (Nat.eq_dec p n) as [->|]; [congruence | lia].
  - assert (p = n) as ->; [|unfold n; lia].
    destruct (Nat.eq_dec p n) as [|Hne]; [assumption|].
    destruct (Hsteps n ltac:(lia)) as (Htrue & _). congruence.
Qed.

Lemma series_length_witness :
  valid_date (mkdate 2020 11 21)
  /\ PyDate.leb (mkdate 2020 11 21) (mkdate 2030 5 21) = true
  /\ exists coupons,
      construct_yearly_coupon_series (mkdate 2020 11 21) (mkdate 2030 5 21)
        (float_lit 1 200) 100%float = Ok coupons
      /\ Z.of_nat (length coupons) = 10.
Proof.
  split; [reflexivity|]. split; [reflexivity|].
  destruct (construct_yearly_coupon_series (mkdate 2020 11 21)
              (mkdate 2030 5 21) (float_lit 1 200) 100%float)
    as [coupons| |] eqn:E; [|vm_compute in E; discriminate E..].
  exists coupons. split; [reflexivity|].
  exact (series_length (mkdate 2020 11 21) (mkdate 2030 5 21)
           (float_lit 1 200) 100%float coupons eq_refl eq_refl E).
Defined.

(** ** The bond that [construct] returns *)

(** X9.  A bond that [construct] returns has the principal and the maturity it
    was given and no market price yet; its coupons are those of the first
    series followed by those of the second, every one pays
    [principle * (coupon_rate / 2.0)], is paid and goes ex on a weekday,
    and is paid seven to eleven days after it goes ex. *)
Theorem construct_bond (first_coupon_pay_date second_coupon_pay_date
  maturity_date : date) (coupon_rate principle' : float)
  (bond : FixedRateACGB float) :
  valid_date first_coupon_pay_date -> valid_date second_coupon_pay_date ->
  construct first_coupon_pay_date second_coupon_pay_date maturity_date
            coupon_rate principle' = Ok bond ->
  exists coupons_a coupons_b,
    construct_yearly_coupon_series first_coupon_pay_date maturity_date
      (coupon_rate / 2)%float principle' = Ok coupons_a
    /\ construct_yearly_coupon_series second_coupon_pay_date maturity_date
         (coupon_rate / 2)%float principle' = Ok coupons_b
    /\ coupons bond = coupons_a ++ coupons_b
    /\ principle bond = principle'
    /\ maturity bond = maturity_date
    /\ prop_get market_dirty_price bond = Ok 0%float
    /\ Forall (fun c =>
                 coupon_amount c = (principle' * (coupon_rate / 2))%float
                 /\ 0 <= weekday (payment_date c) <= 4
                 /\ 0 <= weekday (ex_date c) <= 4
                 /\ 7 <= days_between (ex_date c) (payment_date c) <= 11)
              (coupons bond).
Proof.
  intros Hd1 Hd2 Hrun. unfold construct in Hrun.
  destruct (construct_yearly_coupon_series first_coupon_pay_date
              maturity_date _ principle') as [ca| |] eqn:Ea;
    try discriminate Hrun.
  destruct (construct_yearly_coupon_series second_coupon_pay_date
              maturity_date _ principle') as [cb| |] eqn:Eb;
    try discriminate Hrun.
  cbn [bind] in Hrun. injection Hrun as <-.
  exists ca, cb. repeat (split; [reflexivity|]).
  cbn [coupons FixedRateACGB_init].
  assert (Hall : forall first cs,
             valid_date first ->
             construct_yearly_coupon_series first maturity_date
               (coupon_rate / 2)%float principle' = Ok cs ->
             Forall (fun c =>
                 coupon_amount c = (principle' * (coupon_rate / 2))%float
                 /\ 0 <= weekday (payment_date c) <= 4
                 /\ 0 <= weekday (ex_date c) <= 4
                 /\ 7 <= days_between (ex_date c) (payment_date c) <= 11) cs).
  { intros first cs Hfirst Hcs.
    apply (series_returns_Forall _ first maturity_date (coupon_rate / 2)%float
             principle' cs); try assumption.
    intros d Hd H10. split; [reflexivity|].
    destruct (coupon_on_weekdays (num_mul principle' (coupon_rate / 2)%float)
                d Hd H10) as [Hw1 Hw2].
    repeat split; try apply Hw1; try apply Hw2;
      now apply coupon_on_gap. }
  apply Forall_app. split; eauto.
Qed.

Lemma construct_bond_witness :
  valid_date (mkdate 2020 11 21) /\ valid_date (mkdate 2021 5 21)
  /\ exists bond,
      construct (mkdate 2020 11 21) (mkdate 2021 5 21) (mkdate 2030 5 21)
                (float_lit 1 100) 100%float = Ok bond
      /\ length (coupons bond) = 20%nat
      /\ Forall (fun c => coupon_amount c = 0.5%float) (coupons bond).
Proof.
  split; [reflexivity|]. split; [reflexivity|].
  destruct (construct (mkdate 2020 11 21) (mkdate 2021 5 21) (mkdate 2030 5 21)
                      (float_lit 1 100) 100%float) as [bond| |] eqn:E;
    [|vm_compute in E; discriminate E..].
  exists bond. split; [reflexivity|].
  destruct (construct_bond (mkdate 2020 11 21) (mkdate 2021 5 21)
              (mkdate 2030 5 21) (float_lit 1 100) 100%float bond
              eq_refl eq_refl E)
    as (ca & cb & _ & _ & _ & _ & _ & _ & Hall).
  split.
  - vm_compute in E. injection E as <-. reflexivity.
  - eapply Forall_impl; [|exact Hall]. intros c (Hamount & _).
    rewrite Hamount. reflexivity.
Defined.

(** ** Valuation *)

Lemma ltb_iff (a b : date) :
  PyDate.ltb a b = true <->
  year a < year b
  \/ (year a = year b
      /\ (month a < month b \/ (month a = month b /\ day a < day b))).
Proof.
  unfold PyDate.ltb, PyDate.compare.
  destruct (Z.compare_spec (year a) (year b));
    destruct (Z.compare_spec (month a) (month b));
    destruct (Z.compare_spec (day a) (day b));
    split; intros; try discriminate; try reflexivity; lia.
Qed.

Lemma leb_ltb_trans (a b c : date) :
  PyDate.leb a b = true -> PyDate.ltb b c = true -> PyDate.ltb a c = true.
Proof. rewrite leb_iff, !ltb_iff. lia. Qed.

Section ValuationFacts.

Context {num : Type} `{PyNumber num}.

Lemma discounted_from_ext (curve1 curve2 : date -> num) (as_of : date)
  (cs : list (Coupon num)) (acc : num) :
  (forall c, In c cs -> PyDate.gtb (ex_date c) as_of = true ->
             curve1 (payment_date c) = curve2 (payment_date c)) ->
  discounted_from curve1 as_of acc cs = discounted_from curve2 as_of acc cs.
Proof.
  revert acc. induction cs as [|c cs IH]; intros acc Hagree; [reflexivity|].
  cbn [discounted_from].
  destruct (PyDate.ltb as_of (ex_date c)) eqn:Hdue.
  - rewrite (Hagree c (or_introl eq_refl) Hdue).
    apply IH. intros c' Hc'. apply Hagree. now right.
  - apply IH. intros c' Hc'. apply Hagree. now right.
Qed.

Lemma discounted_from_filter (curve : date -> num) (earlier later : date)
  (cs : list (Coupon num)) (acc : num) :
  PyDate.leb earlier later = true ->
  discounted_from curve earlier acc
    (filter (fun c => PyDate.gtb (ex_date c) later) cs)
  = discounted_from curve later acc cs.
Proof.
  intros Hle. revert acc. induction cs as [|c cs IH]; intros acc;
    [reflexivity|].
  cbn [filter discounted_from]. unfold PyDate.gtb at 1.
  destruct (PyDate.ltb later (ex_date c)) eqn:Hdue; [|apply IH].
  cbn [discounted_from]. rewrite (leb_ltb_trans _ _ _ Hle Hdue). apply IH.
Qed.

Lemma discounted_from_same (curve : date -> num) (t1 t2 : date)
  (cs : list (Coupon num)) (acc : num) :
  (forall c, In c cs ->
             PyDate.gtb (ex_date c) t1 = PyDate.gtb (ex_date c) t2) ->
  discounted_from curve t1 acc cs = discounted_from curve t2 acc cs.
Proof.
  revert acc. induction cs as [|c cs IH]; intros acc Hsame; [reflexivity|].
  cbn [discounted_from].
  pose proof (Hsame c (or_introl eq_refl)) as Hc. unfold PyDate.gtb in Hc.
  rewrite Hc.
  destruct (PyDate.ltb t2 (ex_date c)); apply IH; intros c' Hc';
    apply Hsame; now right.
Qed.

End ValuationFacts.

(** X10.  The dirty value reads the discount curve at the maturity and at the
    payment dates of the coupons whose ex-date is after the as-of date,
    and nowhere else: two curves that agree there give the same value,
    whatever they are at ex-dates, at the as-of date or at the payment
    dates of coupons gone ex. *)
Theorem calculate_dirty_value_curve_ext {num : Type} `{PyNumber num}
  (bond : FixedRateACGB num) (curve1 curve2 : date -> num) (today : date) :
  curve1 (maturity bond) = curve2 (maturity bond) ->
  (forall c, In c (coupons bond) -> PyDate.gtb (ex_date c) today = true ->
             curve1 (payment_date c) = curve2 (payment_date c)) ->
  calculate_dirty_value bond curve1 today
  = calculate_dirty_value bond curve2 today.
Proof.
  intros Hmaturity Hdue. rewrite !dirty_value_unfold, Hmaturity.
  f_equal. now apply discounted_from_ext.
Qed.

Lemma calculate_dirty_value_curve_ext_witness :
  let bond :=
    mkFixedRateACGB 100
      [mkCoupon (mkdate 2020 5 12) (mkdate 2020 5 21) 1;
       mkCoupon (mkdate 2020 11 12) (mkdate 2020 11 23) 1]
      (mkdate 2020 11 21) 0 in
  calculate_dirty_value bond
    (fun d => if month d =? 11 then 3 else 5) (mkdate 2020 7 23)
  = calculate_dirty_value bond
      (fun d => if month d =? 11 then 3 else 7) (mkdate 2020 7 23).
Proof.
  intros bond.
  apply (calculate_dirty_value_curve_ext bond
           (fun d => if month d =? 11 then 3 else 5)
           (fun d => if month d =? 11 then 3 else 7) (mkdate 2020 7 23)).
  - reflexivity.
  - intros c [<- | [<- | []]] Hdue; [discriminate Hdue | reflexivity].
Defined.

(** X11.  The as-of date matters only through the coupons it excludes.
    Valuing a bond at a date is valuing, at any earlier date, the bond
    stripped of the coupons gone ex by the later date; and two as-of
    dates between which no coupon of the bond goes ex give the same
    value. *)
Theorem calculate_dirty_value_as_of {num : Type} `{PyNumber num}
  (bond : FixedRateACGB num) (curve : date -> num) (earlier later : date) :
  PyDate.leb earlier later = true ->
  calculate_dirty_value bond curve later
  = calculate_dirty_value
      (with_coupons bond
         (filter (fun c => PyDate.gtb (ex_date c) later) (coupons bond)))
      curve earlier
  /\ ((forall c, In c (coupons bond) ->
         PyDate.gtb (ex_date c) earlier = PyDate.gtb (ex_date c) later) ->
      calculate_dirty_value bond curve earlier
      = calculate_dirty_value bond curve later).
Proof.
  intros Hle. rewrite !dirty_value_unfold. split.
  - cbn [with_coupons coupons maturity principle].
    now rewrite discounted_from_filter.
  - intros Hsame. f_equal. now apply discounted_from_same.
Qed.

Lemma calculate_dirty_value_as_of_witness :
  let bond :=
    mkFixedRateACGB 100
      [mkCoupon (mkdate 2020 5 12) (mkdate 2020 5 21) 1;
       mkCoupon (mkdate 2020 11 12) (mkdate 2020 11 23) 1]
      (mkdate 2020 11 21) 0 in
  calculate_dirty_value bond (fun _ => 1) (mkdate 2020 7 23)
  = calculate_dirty_value
      (with_coupons bond
         [mkCoupon (mkdate 2020 11 12) (mkdate 2020 11 23) 1])
      (fun _ => 1) (mkdate 2020 1 1).
Proof.
  intros bond.
  exact (proj1 (calculate_dirty_value_as_of bond (fun _ => 1)
                  (mkdate 2020 1 1) (mkdate 2020 7 23) eq_refl)).
Defined.
(** ** The order of the bonds passed to the fit *)

Lemma ltb_irrefl (a : date) : PyDate.ltb a a = false.
Proof.
  destruct (PyDate.ltb a a) eqn:E; [|reflexivity].
  apply ltb_iff in E. lia.
Qed.

Lemma ltb_asym (a b : date) :
  PyDate.ltb a b = true -> PyDate.ltb b a = false.
Proof.
  intros Hab. destruct (PyDate.ltb b a) eqn:E; [|reflexivity].
  apply ltb_iff in Hab. apply ltb_iff in E. lia.
Qed.

Lemma ltb_connected (a b : date) :
  a <> b -> PyDate.ltb a b = true \/ PyDate.ltb b a = true.
Proof.
  intros Hne. unfold PyDate.ltb. rewrite (compare_antisym a b).
  destruct (PyDate.compare a b) eqn:E; cbn [CompOpp]; auto.
  now apply compare_Eq_eq in E.
Qed.

Section SortedPermutation.

Context {A : Type} (key : A -> date).

(** Two insertions of elements with different keys commute. *)
Lemma insert_by_comm (x y : A) (l : list A) :
  key x <> key y ->
  insert_by key x (insert_by key y l) = insert_by key y (insert_by key x l).
Proof.
  intros Hne.
  assert (Hxy : (PyDate.ltb (key x) (key y) = true
                 /\ PyDate.ltb (key y) (key x) = false)
                \/ (PyDate.ltb (key x) (key y) = false
                    /\ PyDate.ltb (key y) (key x) = true)).
  { destruct (ltb_connected _ _ Hne) as [Hlt | Hlt];
      [left | right]; (split; [|]); auto using ltb_asym. }
  induction l as [|a l IH]; cbn [insert_by].
  - destruct Hxy as [[-> ->] | [-> ->]]; reflexivity.
  - destruct (PyDate.ltb (key a) (key y)) eqn:Hay,
             (PyDate.ltb (key a) (key x)) eqn:Hax;
      cbn [insert_by]; rewrite ?Hay, ?Hax.
    + now rewrite IH.
    + assert (Hlt : PyDate.ltb (key x) (key y) = true).
      { apply (leb_ltb_trans _ (key a)); [|exact Hay].
        now rewrite leb_ltb_negb, Hax. }
      now rewrite Hlt.
    + assert (Hlt : PyDate.ltb (key y) (key x) = true).
      { apply (leb_ltb_trans _ (key a)); [|exact Hax].
        now rewrite leb_ltb_negb, Hay. }
      now rewrite Hlt.
    + destruct Hxy as [[-> ->] | [-> ->]]; reflexivity.
Qed.

(** With keys all different, [sorted] depends on the elements only. *)
Lemma sorted_permutation (l l' : list A) :
  Permutation l l' -> NoDup (map key l) -> sorted key l = sorted key l'.
Proof.
  induction 1 as [|x l l' Hp IH|x y l|l l' l'' Hp1 IH1 Hp2 IH2];
    intros Hnd.
  - reflexivity.
  - cbn [sorted fold_right]. fold (sorted key l) (sorted key l').
    rewrite IH; [reflexivity|]. now inversion Hnd.
  - cbn [sorted fold_right]. fold (sorted key l).
    apply insert_by_comm. inversion Hnd as [|? ? Hnotin _]; subst.
    intros Heq. apply Hnotin. left. now symmetry.
  - rewrite IH1 by exact Hnd. apply IH2.
    eapply Permutation_NoDup; [|exact Hnd]. now apply Permutation_map.
Qed.

End SortedPermutation.

Lemma is_earliest_unique (m m' : date) (ds ds' : list date) :
  (forall d, In d ds <-> In d ds') ->
  is_earliest m ds -> is_earliest m' ds' -> m = m'.
Proof.
  intros Hsame [Hin Hle] [Hin' Hle'].
  apply leb_antisym; [apply Hle | apply Hle']; now apply Hsame.
Qed.

Lemma is_latest_unique (m m' : date) (ds ds' : list date) :
  (forall d, In d ds <-> In d ds') ->
  is_latest m ds -> is_latest m' ds' -> m = m'.
Proof.
  intros Hsame [Hin Hle] [Hin' Hle'].
  apply leb_antisym; [apply Hle' | apply Hle]; now apply Hsame.
Qed.

(** X12.  The fit does not depend on the order in which the bonds are passed.
    The knot locations, or the exception raised in place of them, are
    the same for every reordering of the list: they depend on the
    earliest and the latest maturity only.  When no two bonds mature on
    the same day the whole fit is the same, whatever the spline and the
    optimiser are; with equal maturities the stable sort keeps the
    order of the input among them. *)
Theorem fit_discount_curve_permutation
  (CubicSpline : list float -> list float -> result (float -> float))
  (least_squares : (list float -> result (list float)) -> list float ->
                   result (list float))
  (bonds bonds' : list (FixedRateACGB float)) (options : DiscountFitOptions)
  (today : date) :
  Permutation bonds bonds' ->
  (located <- fit_knot_locations bonds options today ;; Ok (snd located))
  = (located <- fit_knot_locations bonds' options today ;; Ok (snd located))
  /\ (NoDup (map maturity bonds) ->
      fit_discount_curve CubicSpline least_squares bonds options today
      = fit_discount_curve CubicSpline least_squares bonds' options today).
Proof.
  intros Hperm. split.
  - destruct bonds as [|b bs], bonds' as [|b' bs'].
    + reflexivity.
    + now apply Permutation_nil_cons in Hperm.
    + apply Permutation_sym in Hperm. now apply Permutation_nil_cons in Hperm.
    + destruct (fit_knot_locations_bounds b bs options today)
        as (e & l & He & Hl & ->).
      destruct (fit_knot_locations_bounds b' bs' options today)
        as (e' & l' & He' & Hl' & ->).
      assert (Hsame : forall d, In d (map maturity (b :: bs))
                                <-> In d (map maturity (b' :: bs'))).
      { intros d. split; apply Permutation_in; apply Permutation_map;
          [exact Hperm | now apply Permutation_sym]. }
      rewrite <- (is_earliest_unique _ _ _ _ Hsame He He').
      rewrite <- (is_latest_unique _ _ _ _ Hsame Hl Hl').
      destruct (timedelta_days (extenion_days options)); cbn [bind];
        try reflexivity.
      destruct (sub_days e a); cbn [bind]; try reflexivity.
      destruct (add_days l a); cbn [bind]; try reflexivity.
      destruct (linspace _ _ _); reflexivity.
  - intros Hdistinct. unfold fit_discount_curve, fit_knot_locations.
    cbv zeta. now rewrite (sorted_permutation maturity _ _ Hperm Hdistinct).
Qed.

Lemma fit_discount_curve_permutation_witness :
  let b1 := FixedRateACGB_init 100%float [] (mkdate 2021 5 21) in
  let b2 := FixedRateACGB_init 100%float [] (mkdate 2030 5 21) in
  let CubicSpline := fun (_ _ : list float) => Ok (fun x : float => x) in
  let least_squares :=
    fun (f : list float -> result (list float)) (x0 : list float) => f x0 in
  Permutation [b1; b2] [b2; b1]
  /\ NoDup (map maturity [b1; b2])
  /\ (located <- fit_knot_locations [b1; b2] DiscountFitOptions_init
                   (mkdate 2020 7 23) ;; Ok (snd located))
     = (located <- fit_knot_locations [b2; b1] DiscountFitOptions_init
                     (mkdate 2020 7 23) ;; Ok (snd located))
  /\ fit_discount_curve CubicSpline least_squares [b1; b2]
       DiscountFitOptions_init (mkdate 2020 7 23)
     = fit_discount_curve CubicSpline least_squares [b2; b1]
         DiscountFitOptions_init (mkdate 2020 7 23).
Proof.
  intros b1 b2 CubicSpline least_squares.
  assert (Hperm : Permutation [b1; b2] [b2; b1]) by apply perm_swap.
  assert (Hdistinct : NoDup (map maturity [b1; b2])).
  { repeat constructor; cbn [In map]; [|tauto].
    intros [Heq | []]. discriminate Heq. }
  split; [exact Hperm|]. split; [exact Hdistinct|].
  destruct (fit_discount_curve_permutation CubicSpline least_squares
              [b1; b2] [b2; b1] DiscountFitOptions_init (mkdate 2020 7 23)
              Hperm) as [Hknots Hfit].
  split; [exact Hknots | exact (Hfit Hdistinct)].
Defined.
(** ** The sign of a year fraction *)

Lemma forall_range_spec (f : int -> bool) (k : nat) :
  forall (w lo : int),
    to_Z w = 2 ^ Z.of_nat k -> to_Z lo + 2 ^ Z.of_nat k <= wB ->
    forall_range k w f lo = true ->
    forall z, to_Z lo <= z < to_Z lo + 2 ^ Z.of_nat k ->
              f (Uint63.of_Z z) = true.
Proof.
  induction k as [|k IH]; intros w lo Hw Hfit Hall z Hz.
  - cbn [forall_range] in Hall. change (2 ^ Z.of_nat 0) with 1 in Hz.
    replace z with (to_Z lo) by lia. now rewrite Uint63.of_to_Z.
  - cbn [forall_range] in Hall. cbv zeta in Hall.
    apply andb_true_iff in Hall as [Hlow Hhigh].
    assert (Hpow : 2 ^ Z.of_nat (S k) = 2 * 2 ^ Z.of_nat k).
    { rewrite Nat2Z.inj_succ, Z.pow_succ_r by lia. reflexivity. }
    assert (Hpos : 0 < 2 ^ Z.of_nat k) by (apply Z.pow_pos_nonneg; lia).
    assert (Hh : to_Z (w >> 1) = 2 ^ Z.of_nat k).
    { rewrite Uint63.lsr_spec, Hw, Hpow. change (to_Z 1) with 1.
      change (2 ^ 1) with 2. rewrite Z.mul_comm. now apply Z.div_mul. }
    pose proof (Uint63.to_Z_bounded lo) as Hlo.
    destruct (Z_lt_ge_dec z (to_Z lo + 2 ^ Z.of_nat k)) as [Hlt | Hge].
    + apply (IH _ lo Hh); [lia | exact Hlow | lia].
    + assert (Hsum : to_Z (lo + w >> 1) = to_Z lo + 2 ^ Z.of_nat k).
      { rewrite Uint63.add_spec, Hh. apply Z.mod_small. lia. }
      apply (IH _ (lo + w >> 1)%uint63 Hh); [lia | exact Hhigh | lia].
Qed.

Lemma year_frac_ok_all (n : Z) :
  1 <= n < _MAXORDINAL -> year_frac_ok (Uint63.of_Z n) = true.
Proof.
  intros Hn.
  apply (forall_range_spec year_frac_ok 22 4194304 1).
  - reflexivity.
  - vm_compute. discriminate.
  - vm_compute. reflexivity.
  - change (to_Z 1) with 1. change (2 ^ Z.of_nat 22) with 4194304.
    unfold _MAXORDINAL in Hn. lia.
Qed.

Section YearFraction.

Local Open Scope float_scope.

Lemma year_frac_later (today future_date : date) :
  valid_date today -> valid_date future_date ->
  (toordinal today < toordinal future_date)%Z ->
  let t := _date_to_year_fraction_act_365 today future_date in
  (0 <? t) = true /\ (-1 / t <? 0) = true /\ is_infinity (-1 / t) = false.
Proof.
  intros Ht Hf Hlt.
  pose proof (toordinal_bounds _ Ht). pose proof (toordinal_bounds _ Hf).
  unfold _date_to_year_fraction_act_365, days_between, PyFloat.int_truediv.
  cbv zeta.
  destruct (toordinal future_date - toordinal today)%Z as [|p|p] eqn:E;
    try lia.
  pose proof (year_frac_ok_all (Zpos p) ltac:(lia)) as Hok.
  unfold year_frac_ok in Hok. cbv zeta in Hok.
  repeat (apply andb_true_iff in Hok as [Hok ?]).
  cbn [float_of_Z]. repeat split; try assumption.
  now apply negb_true_iff.
Qed.

Lemma year_frac_earlier (today future_date : date) :
  valid_date today -> valid_date future_date ->
  (toordinal future_date < toordinal today)%Z ->
  let t := _date_to_year_fraction_act_365 today future_date in
  (t <? 0) = true /\ (0 <? -1 / t) = true /\ is_infinity (-1 / t) = false.
Proof.
  intros Ht Hf Hlt.
  pose proof (toordinal_bounds _ Ht). pose proof (toordinal_bounds _ Hf).
  unfold _date_to_year_fraction_act_365, days_between, PyFloat.int_truediv.
  cbv zeta.
  destruct (toordinal future_date - toordinal today)%Z as [|p|p] eqn:E;
    try lia.
  pose proof (year_frac_ok_all (Zpos p) ltac:(lia)) as Hok.
  unfold year_frac_ok in Hok. cbv zeta in Hok.
  repeat (apply andb_true_iff in Hok as [Hok ?]).
  cbn [float_of_Z]. repeat split; try assumption.
  now apply negb_true_iff.
Qed.

Lemma year_frac_same (today : date) :
  _date_to_year_fraction_act_365 today today = 0.
Proof.
  unfold _date_to_year_fraction_act_365, days_between.
  now rewrite Z.sub_diag.
Qed.

Lemma float_neg_not_pos (x : float) : (x <? 0) = true -> (0 <? x) = false.
Proof.
  intros Hneg. destruct (0 <? x) eqn:E; [|reflexivity].
  apply float_pos_not_neg in E. congruence.
Qed.

Lemma year_frac_nonzero (today future_date : date) :
  valid_date today -> valid_date future_date -> future_date <> today ->
  (_date_to_year_fraction_act_365 today future_date =? 0) = false.
Proof.
  intros Ht Hf Hne.
  destruct (Z.lt_trichotomy (toordinal today) (toordinal future_date))
    as [Hlt | [Heq | Hgt]].
  - apply float_pos_not_zero. now apply year_frac_later.
  - exfalso. apply Hne. now apply toordinal_inj.
  - apply float_neg_not_zero. now apply year_frac_earlier.
Qed.

End YearFraction.

(** X13.  The year fraction has the sign of the day count, for all dates that
    exist: it is positive exactly when the future date is after
    [today], negative exactly when it is before, and zero exactly when
    the two are the same day.  No day count is so small that the
    division by 365 loses it. *)
Theorem year_fraction_sign (today future_date : date) :
  valid_date today -> valid_date future_date ->
  let t := _date_to_year_fraction_act_365 today future_date in
  (0 <? t)%float = PyDate.ltb today future_date
  /\ (t <? 0)%float = PyDate.ltb future_date today
  /\ ((t =? 0)%float = true <-> future_date = today).
Proof.
  intros Ht Hf. cbv zeta.
  rewrite (ltb_toordinal _ _ Ht Hf), (ltb_toordinal _ _ Hf Ht).
  destruct (Z.lt_trichotomy (toordinal today) (toordinal future_date))
    as [Hlt | [Heq | Hgt]].
  - destruct (year_frac_later _ _ Ht Hf Hlt) as (Hpos & _).
    rewrite Hpos, (float_pos_not_neg _ Hpos), (float_pos_not_zero _ Hpos).
    repeat split; try (symmetry; apply Z.ltb_lt; lia);
      try (symmetry; apply Z.ltb_ge; lia); try discriminate.
    intros ->. lia.
  - apply (toordinal_inj _ _ Ht Hf) in Heq. subst future_date.
    rewrite year_frac_same, !Z.ltb_irrefl. repeat split; reflexivity.
  - destruct (year_frac_earlier _ _ Ht Hf Hgt) as (Hneg & _).
    rewrite Hneg, (float_neg_not_pos _ Hneg), (float_neg_not_zero _ Hneg).
    repeat split; try (symmetry; apply Z.ltb_lt; lia);
      try (symmetry; apply Z.ltb_ge; lia); try discriminate.
    intros ->. lia.
Qed.

Lemma year_fraction_sign_witness :
  valid_date (mkdate 2020 7 23) /\ valid_date (mkdate 2020 7 24)
  /\ (0 <? _date_to_year_fraction_act_365 (mkdate 2020 7 23)
             (mkdate 2020 7 24))%float = true.
Proof.
  split; [reflexivity|]. split; [reflexivity|].
  exact (proj1 (year_fraction_sign (mkdate 2020 7 23) (mkdate 2020 7 24)
                  eq_refl eq_refl)).
Defined.
(** ** More of the yield of a discount factor *)

Section FloatNan.

Local Open Scope float_scope.

Lemma float_nonneg_cases (x : float) :
  (0 <=? x) = true -> (0 <? x) = true \/ (x =? 0) = true.
Proof.
  rewrite FloatAxioms.leb_spec, FloatAxioms.ltb_spec, FloatAxioms.eqb_spec,
    Prim2SF_zero.
  destruct (Prim2SF x) as [s|s| |s m e]; try destruct s; cbn; auto.
Qed.

Lemma is_nan_Prim2SF (x : float) : is_nan x = true -> Prim2SF x = S754_nan.
Proof.
  unfold is_nan. rewrite FloatAxioms.eqb_spec. intros Hnan.
  apply negb_true_iff in Hnan.
  destruct (Prim2SF x) as [s|s| |s m e]; try reflexivity; exfalso.
  - destruct s; discriminate Hnan.
  - destruct s; discriminate Hnan.
  - unfold SFeqb, SFcompare in Hnan.
    destruct s; rewrite Z.compare_refl, ?Pos.compare_cont_refl in Hnan;
      cbn in Hnan; discriminate Hnan.
Qed.

Lemma is_nan_sub_l (x y : float) : is_nan x = true -> is_nan (x - y) = true.
Proof.
  intros Hnan. apply is_nan_Prim2SF in Hnan.
  unfold is_nan. rewrite FloatAxioms.eqb_spec, FloatAxioms.sub_spec, Hnan.
  reflexivity.
Qed.

End FloatNan.

Section YieldFacts.

Local Open Scope float_scope.

Variable libm_pow : float -> float -> float * Z.
Variable complex_pow : float -> float -> result (float * float).

Local Abbreviation float_pow := (PyFloat.float_pow libm_pow complex_pow).

(** One to any power is one: no case of [pow] consults the C library
    for it. *)
Lemma float_pow_one (iw : float) : float_pow 1 iw = Ok (PyFloat.PyFloat 1).
Proof.
  unfold PyFloat.float_pow.
  destruct (iw =? 0); [reflexivity|].
  change (is_nan 1) with false. change (1 =? 1) with true.
  change (abs 1 =? 1) with true. change (is_infinity 1) with false.
  change (1 =? 0) with false. change (1 <? 0) with false. cbn [andb].
  destruct (is_nan iw); [reflexivity|].
  destruct (is_infinity iw); reflexivity.
Qed.

Lemma float_pow_nan (iv iw : float) :
  is_nan iv = true -> (iw =? 0) = false ->
  float_pow iv iw = Ok (PyFloat.PyFloat iv).
Proof.
  intros Hnan Hnz. unfold PyFloat.float_pow. now rewrite Hnz, Hnan.
Qed.

Lemma float_pow_negative (iv iw : float) :
  (iv <? 0) = true -> is_infinity iv = false ->
  (iw =? 0) = false -> is_nan iw = false -> is_infinity iw = false ->
  PyFloat.is_integer iw = false ->
  float_pow iv iw
  = (c <- complex_pow iv iw ;; Ok (PyFloat.PyComplex (fst c) (snd c))).
Proof.
  intros Hneg Hfin Hnz Hnan Hinf Hfrac. unfold PyFloat.float_pow.
  rewrite Hnz, (float_lt_not_nan_l _ _ Hneg), Hnan, Hinf, Hfin,
    (float_neg_not_zero _ Hneg), Hneg, Hfrac.
  reflexivity.
Qed.

Lemma truediv_nonzero (x y : float) :
  (y =? 0) = false -> PyFloat.truediv x y = Ok (x / y).
Proof. intros Hnz. unfold PyFloat.truediv. now rewrite Hnz. Qed.

(** The exponent of the yield, for two different days. *)
Lemma yield_exponent (today future_date : date) :
  valid_date today -> valid_date future_date -> future_date <> today ->
  let exponent := -1 / _date_to_year_fraction_act_365 today future_date in
  (exponent =? 0) = false /\ is_nan exponent = false
  /\ is_infinity exponent = false.
Proof.
  intros Ht Hf Hne. cbv zeta.
  destruct (Z.lt_trichotomy (toordinal today) (toordinal future_date))
    as [Hlt | [Heq | Hgt]].
  - destruct (year_frac_later _ _ Ht Hf Hlt) as (_ & Hneg & Hfin).
    repeat split; [now apply float_neg_not_zero | | exact Hfin].
    exact (float_lt_not_nan_l _ _ Hneg).
  - exfalso. apply Hne. now apply toordinal_inj.
  - destruct (year_frac_earlier _ _ Ht Hf Hgt) as (_ & Hpos & Hfin).
    repeat split; [now apply float_pos_not_zero | | exact Hfin].
    exact (float_lt_not_nan_r _ _ Hpos).
Qed.


(** X15.  A discount of exactly one has a yield of exactly zero over every
    interval that is not empty, forwards or backwards, whatever the C
    library's [pow] does. *)
Theorem discount_to_yield_unit (future_date today : date) :
  valid_date today -> valid_date future_date -> future_date <> today ->
  discount_to_yield libm_pow complex_pow 1 future_date today
  = Ok (PyFloat.PyFloat 0).
Proof.
  intros Ht Hf Hne. unfold discount_to_yield. cbv zeta.
  rewrite (truediv_nonzero _ _ (year_frac_nonzero _ _ Ht Hf Hne)).
  cbn [bind]. rewrite float_pow_one. reflexivity.
Qed.


(** X17.  A discount that is not a number gives a yield that is not a number,
    silently, over every interval that is not empty. *)
Theorem discount_to_yield_nan (discount : float) (future_date today : date) :
  valid_date today -> valid_date future_date -> future_date <> today ->
  is_nan discount = true ->
  exists p,
    discount_to_yield libm_pow complex_pow discount future_date today
    = Ok (PyFloat.PyFloat p)
    /\ is_nan p = true.
Proof.
  intros Ht Hf Hne Hnan.
  destruct (yield_exponent _ _ Ht Hf Hne) as (Hnz & _).
  unfold discount_to_yield. cbv zeta.
  rewrite (truediv_nonzero _ _ (year_frac_nonzero _ _ Ht Hf Hne)).
  cbn [bind]. rewrite (float_pow_nan _ _ Hnan Hnz). cbn [bind PyFloat.sub_one].
  eexists. split; [reflexivity|]. now apply is_nan_sub_l.
Qed.

End YieldFacts.


Lemma discount_to_yield_unit_witness :
  let libm_pow := fun (_ _ : float) => (2%float, 0%Z) in
  let complex_pow := fun (_ _ : float) => Ok (0%float, 0%float) in
  valid_date (mkdate 2021 1 1) /\ valid_date (mkdate 2022 1 1)
  /\ mkdate 2022 1 1 <> mkdate 2021 1 1
  /\ discount_to_yield libm_pow complex_pow 1%float (mkdate 2022 1 1)
       (mkdate 2021 1 1) = Ok (PyFloat.PyFloat 0).
Proof.
  intros libm_pow complex_pow.
  assert (Hne : mkdate 2022 1 1 <> mkdate 2021 1 1) by discriminate.
  split; [reflexivity|]. split; [reflexivity|]. split; [exact Hne|].
  exact (discount_to_yield_unit libm_pow complex_pow (mkdate 2022 1 1)
           (mkdate 2021 1 1) eq_refl eq_refl Hne).
Defined.


Lemma discount_to_yield_nan_witness :
  let libm_pow := fun (_ _ : float) => (2%float, 0%Z) in
  let complex_pow := fun (_ _ : float) => Ok (0%float, 0%float) in
  valid_date (mkdate 2021 1 1) /\ valid_date (mkdate 2022 1 1)
  /\ mkdate 2022 1 1 <> mkdate 2021 1 1
  /\ is_nan nan = true
  /\ exists p,
       discount_to_yield libm_pow complex_pow nan (mkdate 2022 1 1)
         (mkdate 2021 1 1) = Ok (PyFloat.PyFloat p)
       /\ is_nan p = true.
Proof.
  intros libm_pow complex_pow.
  assert (Hne : mkdate 2022 1 1 <> mkdate 2021 1 1) by discriminate.
  split; [reflexivity|]. split; [reflexivity|]. split; [exact Hne|].
  split; [reflexivity|].
  exact (discount_to_yield_nan libm_pow complex_pow nan (mkdate 2022 1 1)
           (mkdate 2021 1 1) eq_refl eq_refl Hne eq_refl).
Defined.
(** ** From a year fraction back to the date *)

Lemma digits2_pos_size (p : positive) : digits2_pos p = Pos.size p.
Proof. induction p as [p IH|p IH|]; cbn; now rewrite ?IH. Qed.

Lemma digits2_pos_53 (p : positive) :
  2 ^ 52 <= Zpos p < 2 ^ 53 -> digits2_pos p = 53%positive.
Proof.
  intros [Hlow Hhigh]. rewrite digits2_pos_size.
  pose proof (Pos.size_gt p) as Hgt. pose proof (Pos.size_le p) as Hle.
  apply Pos2Z.pos_lt_pos in Hgt. apply Pos2Z.pos_le_pos in Hle.
  rewrite Pos2Z.inj_pow in Hgt, Hle.
  change (Z.pos 2) with 2 in Hgt, Hle.
  assert (Hs : Zpos (Pos.size p) = 53); [|now injection Hs].
  pose proof (Pos2Z.is_pos (Pos.size p)) as Hpos.
  revert Hgt Hle Hpos. generalize (Zpos (Pos.size p)). intros s Hgt Hle Hpos.
  change (2 ^ 52) with 4503599627370496 in Hlow.
  change (2 ^ 53) with 9007199254740992 in Hhigh.
  destruct (Z_le_gt_dec s 52) as [Hsmall | Hbig].
  - pose proof (Z.pow_le_mono_r 2 s 52 ltac:(lia) Hsmall) as Hmono.
    change (2 ^ 52) with 4503599627370496 in Hmono. lia.
  - destruct (Z_le_gt_dec 54 s) as [Hlarge | Hnot]; [|lia].
    pose proof (Z.pow_le_mono_r 2 54 s ltac:(lia) Hlarge) as Hmono.
    change (2 ^ 54) with 18014398509481984 in Hmono. lia.
Qed.

Lemma round_is_spec (z : float) (i : int) :
  round_is z i = true ->
  PyFloat.round z = Ok (if get_sign z then - to_Z i else to_Z i).
Proof.
  unfold round_is. destruct (frshiftexp z) as [f se] eqn:Efr. cbv zeta.
  set (m := normfr_mantissa f). set (k := (2154 - se)%uint63).
  intros Hok.
  apply andb_true_iff in Hok as [Hok Hround].
  apply andb_true_iff in Hok as [Hok Hmhigh].
  apply andb_true_iff in Hok as [Hok Hmlow].
  apply andb_true_iff in Hok as [Hok Hsehigh].
  apply andb_true_iff in Hok as [Hok Hselow].
  apply andb_true_iff in Hok as [Hok Hinf].
  apply andb_true_iff in Hok as [Hnan Hzero].
  apply negb_true_iff in Hnan, Hzero, Hinf.
  apply Uint63.leb_spec in Hselow, Hsehigh, Hmlow.
  apply Uint63.ltb_spec in Hmhigh.
  change (to_Z 2102) with 2102 in Hselow.
  change (to_Z 2153) with 2153 in Hsehigh.
  change (to_Z 4503599627370496) with (2 ^ 52) in Hmlow.
  change (to_Z 9007199254740992) with (2 ^ 53) in Hmhigh.
  assert (HwB : wB = 2 ^ 63) by reflexivity.
  assert (Hk : to_Z k = 2154 - to_Z se).
  { unfold k. rewrite Uint63.sub_spec. change (to_Z 2154) with 2154.
    apply Z.mod_small. rewrite HwB. change (2 ^ 63) with 9223372036854775808.
    lia. }
  set (K := to_Z k) in *.
  assert (HK : 1 <= K <= 52) by lia.
  (* the decomposition of [z] *)
  assert (Hsf : Prim2SF z
                = S754_finite (get_sign z) (Z.to_pos (to_Z m)) (- K)).
  { unfold Prim2SF. rewrite Hnan, Hzero, Hinf. unfold Z.frexp.
    rewrite Efr. fold m.
    destruct (to_Z m) as [|p|p] eqn:Em;
      try (change (2 ^ 52) with 4503599627370496 in Hmlow; lia).
    unfold shr_fexp, Zdigits2. rewrite (digits2_pos_53 p (conj Hmlow Hmhigh)).
    unfold fexp, SpecFloat.emin, prec, emax, shift.
    replace (IntDef.Z.max (53 + (to_Z se - 2101 - 53) - 53) (3 - 1024 - 53)
             - (to_Z se - 2101 - 53)) with 0.
    2:{ change IntDef.Z.max with Z.max. lia. }
    cbn [shr shr_record_of_loc shr_m Z.to_pos].
    f_equal. lia. }
  unfold PyFloat.round. rewrite Hsf. cbv zeta.
  replace (0 <=? - K) with false by (symmetry; apply Z.leb_gt; lia).
  rewrite Z.opp_involutive.
  rewrite Z2Pos.id by (change (2 ^ 52) with 4503599627370496 in Hmlow; lia).
  (* the powers of two *)
  set (P := 2 ^ K). set (H := 2 ^ (K - 1)).
  assert (HP : P = 2 * H).
  { unfold P, H. replace K with (Z.succ (K - 1)) at 1 by lia.
    apply Z.pow_succ_r. lia. }
  assert (HH : 0 < H) by (apply Z.pow_pos_nonneg; lia).
  assert (HP52 : P <= 2 ^ 52) by (apply Z.pow_le_mono_r; lia).
  change (2 ^ 52) with 4503599627370496 in *.
  change (2 ^ 53) with 9007199254740992 in *.
  change (2 ^ 63) with 9223372036854775808 in *.
  pose proof (Z.div_mod (to_Z m) P ltac:(lia)) as Hdm.
  pose proof (Z.mod_pos_bound (to_Z m) P ltac:(lia)) as Hmod.
  assert (Hq0 : 0 <= to_Z m / P) by (apply Z.div_pos; lia).
  (* the machine integers *)
  assert (Hq : to_Z (m >> k) = to_Z m / P) by apply Uint63.lsr_spec.
  assert (Hqk : to_Z ((m >> k) << k) = P * (to_Z m / P)).
  { rewrite Uint63.lsl_spec, Hq. fold K. fold P. rewrite Z.mul_comm.
    apply Z.mod_small. rewrite HwB. nia. }
  assert (Hr : to_Z (m - ((m >> k) << k)) = to_Z m mod P).
  { rewrite Uint63.sub_spec, Hqk. rewrite Z.mod_small; [lia|].
    rewrite HwB. lia. }
  assert (Hk1 : to_Z (k - 1) = K - 1).
  { rewrite Uint63.sub_spec. change (to_Z 1) with 1. fold K.
    apply Z.mod_small. rewrite HwB. lia. }
  assert (Hhalf : to_Z (1 << (k - 1)) = H).
  { rewrite Uint63.lsl_spec, Hk1. change (to_Z 1) with 1. rewrite Z.mul_1_l.
    fold H. apply Z.mod_small. rewrite HwB. lia. }
  apply orb_true_iff in Hround as [Hcase | Hcase];
    apply andb_true_iff in Hcase as [Hqi Hri];
    apply Uint63.eqb_spec in Hqi; apply Uint63.ltb_spec in Hri.
  - rewrite Hr, Hhalf in Hri. rewrite <- Hqi, Hq.
    replace (2 * (to_Z m mod P) ?= P) with Lt
      by (symmetry; apply Z.compare_lt_iff; lia).
    reflexivity.
  - rewrite Hr, Hhalf in Hri.
    assert (Hi : to_Z i = to_Z m / P + 1).
    { rewrite <- Hqi, Uint63.add_spec, Hq. change (to_Z 1) with 1.
      apply Z.mod_small. rewrite HwB. nia. }
    rewrite Hi.
    replace (2 * (to_Z m mod P) ?= P) with Gt
      by (symmetry; apply Z.compare_gt_iff; lia).
    reflexivity.
Qed.

Lemma round_trip_ok_all (n : Z) :
  1 <= n < _MAXORDINAL -> round_trip_ok (Uint63.of_Z n) = true.
Proof.
  intros Hn.
  apply (forall_range_spec round_trip_ok 22 4194304 1).
  - reflexivity.
  - vm_compute. discriminate.
  - vm_compute. reflexivity.
  - change (to_Z 1) with 1. change (2 ^ Z.of_nat 22) with 4194304.
    unfold _MAXORDINAL in Hn. lia.
Qed.

(** The year fraction of a day count between two dates, times 365,
    rounds to the day count. *)
Lemma round_year_fraction (n : Z) :
  - _MAXORDINAL < n < _MAXORDINAL ->
  PyFloat.round (PyFloat.int_truediv n 365 * float_of_Z 365)%float = Ok n.
Proof.
  intros Hn. unfold PyFloat.int_truediv.
  assert (Hback : forall p, Zpos p < _MAXORDINAL ->
                            to_Z (Uint63.of_Z (Zpos p)) = Zpos p).
  { intros p Hp. rewrite Uint63.of_Z_spec. apply Z.mod_small.
    change wB with 9223372036854775808. unfold _MAXORDINAL in Hp. lia. }
  destruct n as [|p|p].
  - vm_compute. reflexivity.
  - pose proof (round_trip_ok_all (Zpos p) ltac:(lia)) as Hok.
    unfold round_trip_ok in Hok. cbv zeta in Hok.
    apply andb_true_iff in Hok as [Hok _].
    apply andb_true_iff in Hok as [Hok _].
    apply andb_true_iff in Hok as [Hround Hsign].
    apply negb_true_iff in Hsign.
    change (float_of_Z (Zpos p)) with (of_uint63 (Uint63.of_Z (Zpos p))).
    rewrite (round_is_spec _ _ Hround), Hsign.
    rewrite Hback by lia. reflexivity.
  - pose proof (round_trip_ok_all (Zpos p) ltac:(lia)) as Hok.
    unfold round_trip_ok in Hok. cbv zeta in Hok.
    apply andb_true_iff in Hok as [Hok Hsign].
    apply andb_true_iff in Hok as [_ Hround].
    change (float_of_Z (Zneg p))
      with (- of_uint63 (Uint63.of_Z (Zpos p)))%float.
    rewrite (round_is_spec _ _ Hround), Hsign.
    rewrite Hback by lia. reflexivity.
Qed.

(** X18.  The two conversions are inverse to each other on dates: the year
    fraction from [today] to any date, converted back from [today], is
    that date, for all pairs of dates that exist.  The quotient by 365
    and the product with 365 are each rounded to binary64 and the
    product is not always the day count, but it is always nearer to it
    than to any other integer. *)
Theorem year_fraction_round_trip (today future_date : date) :
  valid_date today -> valid_date future_date ->
  _year_fraction_act_365_to_date today
    (_date_to_year_fraction_act_365 today future_date)
  = Ok future_date.
Proof.
  intros Ht Hf.
  pose proof (toordinal_bounds _ Ht) as Hbt.
  pose proof (toordinal_bounds _ Hf) as Hbf.
  unfold _year_fraction_act_365_to_date, _date_to_year_fraction_act_365,
    days_between.
  cbv zeta. rewrite round_year_fraction by lia. cbn [bind].
  unfold timedelta_days.
  replace ((-999999999 <=? toordinal future_date - toordinal today)
           && (toordinal future_date - toordinal today <=? 999999999))
    with true.
  2:{ symmetry. apply andb_true_iff. unfold _MAXORDINAL in *.
      split; apply Z.leb_le; lia. }
  cbn [bind]. rewrite add_days_in_range by lia.
  replace (toordinal today + (toordinal future_date - toordinal today))
    with (toordinal future_date) by lia.
  now rewrite fromordinal_toordinal.
Qed.

Lemma year_fraction_round_trip_witness :
  valid_date (mkdate 2020 7 23) /\ valid_date (mkdate 2030 5 21)
  /\ _year_fraction_act_365_to_date (mkdate 2020 7 23)
       (_date_to_year_fraction_act_365 (mkdate 2020 7 23) (mkdate 2030 5 21))
     = Ok (mkdate 2030 5 21).
Proof.
  split; [reflexivity|]. split; [reflexivity|].
  exact (year_fraction_round_trip (mkdate 2020 7 23) (mkdate 2030 5 21)
           eq_refl eq_refl).
Defined.
(** ** What the conversion to a date does with other year fractions *)

Section FloatClasses.

Local Open Scope float_scope.

Lemma Prim2SF_nan_is_nan (x : float) : Prim2SF x = S754_nan -> is_nan x = true.
Proof.
  intros Hx. unfold is_nan. now rewrite FloatAxioms.eqb_spec, Hx.
Qed.

Lemma is_infinity_Prim2SF (x : float) :
  is_infinity x = true -> exists s, Prim2SF x = S754_infinity s.
Proof.
  unfold is_infinity. rewrite FloatAxioms.eqb_spec, FloatAxioms.abs_spec.
  change (Prim2SF infinity) with (S754_infinity false).
  destruct (Prim2SF x) as [s|s| |s m e]; cbn; intros Hinf;
    try discriminate Hinf; eauto.
Qed.

End FloatClasses.

(** X19.  Every outcome of [_year_fraction_act_365_to_date]: it raises
    [ValueError] exactly when the product with 365 is not a number and
    [OverflowError] when that product is infinite; a date that it
    returns exists and lies the rounded product in days from [today];
    and a zero year fraction, of either sign, gives back [today]. *)
Theorem year_fraction_to_date_outcome (today : date)
  (year_fraction : float) :
  valid_date today ->
  let product := (year_fraction * float_of_Z 365)%float in
  (_year_fraction_act_365_to_date today year_fraction = Raise ValueError
   <-> is_nan product = true)
  /\ (is_infinity product = true ->
      _year_fraction_act_365_to_date today year_fraction
      = Raise OverflowError)
  /\ (forall d,
         _year_fraction_act_365_to_date today year_fraction = Ok d ->
         valid_date d /\ PyFloat.round product = Ok (days_between today d))
  /\ ((year_fraction =? 0)%float = true ->
      _year_fraction_act_365_to_date today year_fraction = Ok today).
Proof.
  intros Ht product. unfold _year_fraction_act_365_to_date. fold product.
  assert (Hlater : forall n,
             (delta <- timedelta_days n ;; add_days today delta)
             <> Raise ValueError).
  { intros n. destruct (timedelta_days_cases n) as [-> | ->];
      cbn [bind]; [|discriminate].
    destruct (add_days_cases today n) as [[d ->] | ->]; discriminate. }
  split; [|split; [|split]].
  - split.
    + intros Hrun. apply Prim2SF_nan_is_nan.
      unfold PyFloat.round in Hrun.
      destruct (Prim2SF product) as [s|s| |s m e]; cbn [bind] in Hrun;
        try reflexivity; try discriminate Hrun;
        now apply Hlater in Hrun.
    + intros Hnan. unfold PyFloat.round.
      now rewrite (is_nan_Prim2SF _ Hnan).
  - intros Hinf. apply is_infinity_Prim2SF in Hinf as [s Hs].
    unfold PyFloat.round. now rewrite Hs.
  - intros d Hrun.
    destruct (PyFloat.round product) as [n| |]; cbn [bind] in Hrun;
      try discriminate Hrun.
    unfold timedelta_days in Hrun.
    destruct ((-999999999 <=? n) && (n <=? 999999999)); cbn [bind] in Hrun;
      try discriminate Hrun.
    unfold add_days in Hrun. cbv zeta in Hrun.
    destruct ((0 <? toordinal today + n)
              && (toordinal today + n <=? _MAXORDINAL)) eqn:Hrange;
      try discriminate Hrun.
    injection Hrun as <-.
    apply andb_true_iff in Hrange as [Hlow Hhigh].
    apply Z.ltb_lt in Hlow. apply Z.leb_le in Hhigh.
    destruct (fromordinal_spec (toordinal today + n) ltac:(lia))
      as [Hvalid Hord].
    split; [exact Hvalid|]. unfold days_between. rewrite Hord.
    f_equal. lia.
  - intros Hzero. pose proof (toordinal_bounds _ Ht) as Hb.
    assert (Hround : PyFloat.round product = Ok 0).
    { unfold product.
      destruct (float_eq_zero _ Hzero) as [-> | ->]; vm_compute; reflexivity. }
    rewrite Hround. cbn [bind]. change (timedelta_days 0) with (Ok 0).
    cbn [bind]. rewrite add_days_in_range by lia.
    rewrite Z.add_0_r. now rewrite fromordinal_toordinal.
Qed.

Lemma year_fraction_to_date_outcome_witness :
  valid_date (mkdate 2020 7 23)
  /\ _year_fraction_act_365_to_date (mkdate 2020 7 23) nan = Raise ValueError
  /\ _year_fraction_act_365_to_date (mkdate 2020 7 23) infinity
     = Raise OverflowError
  /\ _year_fraction_act_365_to_date (mkdate 2020 7 23) (-0)%float
     = Ok (mkdate 2020 7 23).
Proof.
  destruct (year_fraction_to_date_outcome (mkdate 2020 7 23) nan eq_refl)
    as (Hnan & _).
  destruct (year_fraction_to_date_outcome (mkdate 2020 7 23) infinity
              eq_refl) as (_ & Hinf & _).
  destruct (year_fraction_to_date_outcome (mkdate 2020 7 23) (-0)%float
              eq_refl) as (_ & _ & _ & Hzero).
  split; [reflexivity|].
  split; [apply Hnan; reflexivity|].
  split; [apply Hinf; reflexivity | apply Hzero; reflexivity].
Defined.
(** ** A constructed bond at and after its maturity *)

Lemma ltb_leb_trans (a b c : date) :
  PyDate.ltb a b = true -> PyDate.leb b c = true -> PyDate.ltb a c = true.
Proof. rewrite leb_iff, !ltb_iff. lia. Qed.

Lemma coupon_on_ex_early {num : Type} (amount : num) (d : date) :
  valid_date d -> 10 <= toordinal d ->
  PyDate.ltb (ex_date (coupon_on amount d)) d = true.
Proof.
  intros Hd H10. pose proof (toordinal_bounds d Hd) as Hb.
  assert (Hr : 1 <= toordinal d - 9 <= _MAXORDINAL) by lia.
  destruct (fromordinal_spec _ Hr) as [Hv Ho].
  destruct (next_business_day_spec _ Hv) as (Hv1 & Ho1 & _).
  pose proof (business_shift_weekday _
                (weekday_range (fromordinal (toordinal d - 9)))).
  unfold coupon_on, Coupon_init, days_before. cbn [ex_date].
  rewrite ltb_toordinal by assumption. apply Z.ltb_lt. lia.
Qed.

Section Matured.

Context {num : Type} `{PyNumber num}.

Lemma discounted_from_none (curve : date -> num) (as_of : date)
  (cs : list (Coupon num)) (acc : num) :
  Forall (fun c => PyDate.ltb as_of (ex_date c) = false) cs ->
  discounted_from curve as_of acc cs = acc.
Proof.
  induction 1 as [|c cs Hc _ IH]; [reflexivity|].
  cbn [discounted_from]. now rewrite Hc.
Qed.

(** Every coupon of a series goes ex before the last payment date. *)
Lemma series_ex_before_last (first last : date) (rate principle : num)
  (l : list (Coupon num)) :
  valid_date first ->
  construct_yearly_coupon_series first last rate principle = Ok l ->
  Forall (fun c => PyDate.ltb (ex_date c) last = true) l.
Proof.
  intros Hfirst Hrun.
  destruct (series_returns first last rate principle l Hfirst Hrun)
    as (p & -> & Hsteps & _).
  apply Forall_forall. intros c Hc.
  apply in_map_iff in Hc as (d & <- & Hd).
  apply in_map_iff in Hd as (i & <- & Hi). apply in_seq in Hi.
  destruct (Hsteps i ltac:(lia)) as (Hle & Hv & H10 & _).
  apply (ltb_leb_trans _ (years_after first i)); [|exact Hle].
  now apply coupon_on_ex_early.
Qed.

End Matured.

(** X20.  Valued on its maturity date or later, a bond that [construct]
    returns is worth its discounted principal alone: every coupon went
    ex before the maturity, the one paid at maturity included, so the
    sum over the coupons is the zero that it starts from. *)
Theorem construct_matured (first_coupon_pay_date second_coupon_pay_date
  maturity_date : date) (coupon_rate principle' : float)
  (bond : FixedRateACGB float) (curve : date -> float) (today : date) :
  valid_date first_coupon_pay_date -> valid_date second_coupon_pay_date ->
  construct first_coupon_pay_date second_coupon_pay_date maturity_date
            coupon_rate principle' = Ok bond ->
  PyDate.leb maturity_date today = true ->
  calculate_dirty_value bond curve today
  = (0 + curve maturity_date * principle')%float.
Proof.
  intros Hd1 Hd2 Hrun Hlate. unfold construct in Hrun.
  destruct (construct_yearly_coupon_series first_coupon_pay_date
              maturity_date _ principle') as [ca| |] eqn:Ea;
    try discriminate Hrun.
  destruct (construct_yearly_coupon_series second_coupon_pay_date
              maturity_date _ principle') as [cb| |] eqn:Eb;
    try discriminate Hrun.
  cbn [bind] in Hrun. injection Hrun as <-.
  rewrite dirty_value_unfold.
  cbn [coupons maturity principle FixedRateACGB_init].
  rewrite discounted_from_none; [reflexivity|].
  apply Forall_app. split;
    [apply series_ex_before_last in Ea | apply series_ex_before_last in Eb];
    try assumption;
    (eapply Forall_impl; [|eassumption]); intros c Hc;
    apply ltb_asym; exact (ltb_leb_trans _ _ _ Hc Hlate).
Qed.

Lemma construct_matured_witness :
  valid_date (mkdate 2020 11 21) /\ valid_date (mkdate 2021 5 21)
  /\ exists bond,
      construct (mkdate 2020 11 21) (mkdate 2021 5 21) (mkdate 2030 5 21)
                (float_lit 1 100) 100%float = Ok bond
      /\ calculate_dirty_value bond (fun _ => 0.5%float) (mkdate 2030 5 21)
         = 50%float.
Proof.
  split; [reflexivity|]. split; [reflexivity|].
  destruct (construct (mkdate 2020 11 21) (mkdate 2021 5 21) (mkdate 2030 5 21)
                      (float_lit 1 100) 100%float) as [bond| |] eqn:E;
    [|vm_compute in E; discriminate E..].
  exists bond. split; [reflexivity|].
  rewrite (construct_matured (mkdate 2020 11 21) (mkdate 2021 5 21)
             (mkdate 2030 5 21) (float_lit 1 100) 100%float bond
             (fun _ => 0.5%float) (mkdate 2030 5 21) eq_refl eq_refl E
             eq_refl).
  reflexivity.
Defined.
